(** * Verification of [tools/validate-codeql-permissions.py]

    The script walks the workflow files of [.github/workflows], finds the
    jobs that use [github/codeql-action/analyze] and checks where the
    [security-events: write] permission is granted.

    The development embeds the script as it is written: documents are the
    dynamically typed trees that [yaml.safe_load] returns, every Python
    operation that can raise is a function into [result], and the body of
    [validate_codeql_permissions] is written in a state-and-exception monad
    whose state holds the directory, what was printed, which paths were
    opened and the local variable [error_count]. *)

From Stdlib Require Import List String Ascii Bool Arith ZArith Lia.
From Stdlib Require Import DecimalString Permutation.
Import ListNotations.
Open Scope string_scope.
Open Scope list_scope.

Set Warnings "-register-all,-notation-for-abbreviation".

(** String concatenation, as in an f-string. *)
Infix "+++" := String.append (right associativity, at level 60).

(** ** Documents *)

(** Keys of a mapping are hashable: scalars. A float (or a timestamp) is
    kept as its truth value and its printed form, all the script can observe
    of it. A [!!binary] node, which needs an explicit tag in the file, is
    left out. *)
Inductive scalar : Type :=
| SNone
| SBool (b : bool)
| SInt (n : Z)
| SFloat (nonzero : bool) (text : string)
| SStr (s : string).

(** A [dict] keeps its insertion order: an association list. The keys of a
    Python dict are distinct; the lemmas that depend on it assume
    [NoDup (map fst entries)]. A [set] (a [!!set] node) holds hashable
    elements; the order in which Python visits or prints them is not fixed.
    The order they are listed in here is the order [py_iter] visits them
    in, which the search passes over ([scan_steps_of_scalars]); how a set
    is printed is left to [render], one function for each process. *)
Inductive value : Type :=
| VScalar (k : scalar)
| VList (items : list value)
| VDict (entries : list (scalar * value))
| VSet (elements : list scalar).

Notation VNone := (VScalar SNone).
Notation VStr s := (VScalar (SStr s)).
Notation VInt n := (VScalar (SInt n)).
Notation VBool b := (VScalar (SBool b)).

Definition dict : Type := list (scalar * value).

Definition scalar_eqb (a b : scalar) : bool :=
  match a, b with
  | SNone, SNone => true
  | SBool x, SBool y => Bool.eqb x y
  | SInt x, SInt y => Z.eqb x y
  | SFloat n x, SFloat m y => Bool.eqb n m && String.eqb x y
  | SStr x, SStr y => String.eqb x y
  | _, _ => false
  end.

(** ** Exceptions *)

Inductive pyexn : Type :=
| YAMLError (msg : string)
| IOError (msg : string)
| TypeError (operation : string)
| AttributeError (attribute : string)
| KeyError (key : scalar)
| IndexError.

Definition is_yaml_error (e : pyexn) : bool :=
  match e with YAMLError _ => true | _ => false end.

Inductive result (A : Type) : Type :=
| Ok (a : A)
| Raise (e : pyexn).
Arguments Ok {A} a.
Arguments Raise {A} e.

Definition rbind {A B} (r : result A) (k : A -> result B) : result B :=
  match r with
  | Ok a => k a
  | Raise e => Raise e
  end.

Declare Scope result_scope.
Delimit Scope result_scope with result.
Notation "x <- r ; k" := (rbind r (fun x => k))
  (at level 61, r at next level, right associativity) : result_scope.

(** ** The Python operations the script applies to a document *)

(** [bool(v)] *)
Definition truthy (v : value) : bool :=
  match v with
  | VScalar SNone => false
  | VScalar (SBool b) => b
  | VScalar (SInt n) => negb (Z.eqb n 0)
  | VScalar (SFloat nonzero _) => nonzero
  | VScalar (SStr s) => negb (String.eqb s EmptyString)
  | VList l => match l with [] => false | _ => true end
  | VDict d => match d with [] => false | _ => true end
  | VSet l => match l with [] => false | _ => true end
  end.

(** [isinstance(v, dict)] *)
Definition is_dict (v : value) : bool :=
  match v with VDict _ => true | _ => false end.

(** [v == s] for a string literal [s] *)
Definition py_eq_str (v : value) (s : string) : bool :=
  match v with
  | VScalar (SStr t) => String.eqb t s
  | _ => false
  end.

Fixpoint starts_with (p s : string) : bool :=
  match p with
  | EmptyString => true
  | String a p' =>
      match s with
      | EmptyString => false
      | String b s' => Ascii.eqb a b && starts_with p' s'
      end
  end.

(** [needle in hay] on strings *)
Fixpoint substring_of (needle hay : string) : bool :=
  starts_with needle hay
  || match hay with
     | EmptyString => false
     | String _ rest => substring_of needle rest
     end.

Definition dict_has (key : scalar) (d : dict) : bool :=
  existsb (fun kv => scalar_eqb (fst kv) key) d.

Fixpoint dict_lookup (key : scalar) (d : dict) : option value :=
  match d with
  | [] => None
  | (k, v) :: rest => if scalar_eqb k key then Some v else dict_lookup key rest
  end.

(** [needle in v] for a string literal [needle]: a key of a dict, an element
    of a list, a substring of a string; anything else is not a container. *)
Definition py_contains (needle : string) (v : value) : result bool :=
  match v with
  | VDict d => Ok (dict_has (SStr needle) d)
  | VList l => Ok (existsb (fun x => py_eq_str x needle) l)
  | VSet l => Ok (existsb (fun k => scalar_eqb k (SStr needle)) l)
  | VScalar (SStr s) => Ok (substring_of needle s)
  | VScalar _ => Raise (TypeError "in")
  end.

Definition as_index (k : scalar) : option Z :=
  match k with
  | SInt i => Some i
  | SBool b => Some (if b then 1 else 0)%Z
  | _ => None
  end.

Definition seq_index {A} (l : list A) (i : Z) : option A :=
  let n := Z.of_nat (List.length l) in
  let j := if (i <? 0)%Z then (i + n)%Z else i in
  if ((0 <=? j) && (j <? n))%Z then nth_error l (Z.to_nat j) else None.

Definition chars (s : string) : list value :=
  map (fun c => VStr (String c EmptyString)) (list_ascii_of_string s).

(** [v[key]] *)
Definition py_getitem (v : value) (key : scalar) : result value :=
  match v with
  | VDict d =>
      match dict_lookup key d with
      | Some x => Ok x
      | None => Raise (KeyError key)
      end
  | VList l =>
      match as_index key with
      | Some i =>
          match seq_index l i with
          | Some x => Ok x
          | None => Raise IndexError
          end
      | None => Raise (TypeError "list indices")
      end
  | VScalar (SStr s) =>
      match as_index key with
      | Some i =>
          match seq_index (chars s) i with
          | Some x => Ok x
          | None => Raise IndexError
          end
      | None => Raise (TypeError "string indices")
      end
  | VScalar _ => Raise (TypeError "subscript")
  | VSet _ => Raise (TypeError "subscript")
  end.

(** [v.get(key, default)] *)
Definition py_get (v : value) (key : string) (default : value) : result value :=
  match v with
  | VDict d =>
      match dict_lookup (SStr key) d with
      | Some x => Ok x
      | None => Ok default
      end
  | _ => Raise (AttributeError "get")
  end.

(** [v.items()] *)
Definition py_items (v : value) : result dict :=
  match v with
  | VDict d => Ok d
  | _ => Raise (AttributeError "items")
  end.

(** The elements a [for] loop over [v] visits. *)
Definition py_iter (v : value) : result (list value) :=
  match v with
  | VList l => Ok l
  | VDict d => Ok (map (fun kv => VScalar (fst kv)) d)
  | VSet l => Ok (map VScalar l)
  | VScalar (SStr s) => Ok (chars s)
  | VScalar _ => Raise (TypeError "iter")
  end.

Fixpoint all_str (l : list scalar) : option (list string) :=
  match l with
  | [] => Some []
  | SStr s :: rest =>
      match all_str rest with
      | Some ss => Some (s :: ss)
      | None => None
      end
  | _ :: _ => None
  end.

(** [sep.join(l)]: every element has to be a string. *)
Definition str_join (sep : string) (l : list scalar) : result string :=
  match all_str l with
  | Some ss => Ok (String.concat sep ss)
  | None => Raise (TypeError "join")
  end.

(** [str(n)] of a count. *)
Definition str_of_nat (n : nat) : string :=
  NilZero.string_of_uint (Nat.to_uint n).

(** ** The world the script runs in *)

Inductive stream : Type := Stdout | Stderr.

(** A [line] is one call of [print]: the stream and the text. A text that
    holds a line break is one [line] here and several lines on the
    stream. *)
Definition line : Type := (stream * string)%type.

(** What [open] followed by [yaml.safe_load] gives on a file. *)
Inductive load_result : Type :=
| Loaded (doc : value)
| Malformed (msg : string)
| Unreadable (msg : string).

Inductive node : Type :=
| RegularFile (content : load_result)
| Subdirectory (children : list (string * node)).

Definition dirent : Type := (string * node)%type.

Record state : Type := mkState {
  fs : option (list dirent);   (* [.github/workflows], in listing order *)
  stdio : list line;           (* every [print] so far *)
  opened : list string;        (* every path given to [open] so far *)
  error_count : nat            (* the local variable of the script *)
}.

Definition M (A : Type) : Type := state -> result A * state.

Definition ret {A} (a : A) : M A := fun s => (Ok a, s).

Definition bind {A B} (m : M A) (k : A -> M B) : M B :=
  fun s =>
    match m s with
    | (Ok a, s') => k a s'
    | (Raise e, s') => (Raise e, s')
    end.

Definition lift {A} (r : result A) : M A := fun s => (r, s).

Declare Scope monad_scope.
Delimit Scope monad_scope with monad.
Notation "x <- m ;; k" := (bind m (fun x => k))
  (at level 61, m at next level, right associativity) : monad_scope.
Notation "m ;; k" := (bind m (fun _ => k))
  (at level 61, right associativity) : monad_scope.

(** [try: m except Exception as e: handler e] *)
Definition try_except (m : M unit) (handler : pyexn -> M unit) : M unit :=
  fun s =>
    match m s with
    | (Ok tt, s') => (Ok tt, s')
    | (Raise e, s') => handler e s'
    end.

(** [print(text, file=out)]. The streams are taken to accept every text, as
    streams in UTF-8 do. *)
Definition print (out : stream) (text : string) : M unit :=
  fun s => (Ok tt, mkState (fs s) (stdio s ++ [(out, text)]) (opened s) (error_count s)).

(** [error_count += 1] *)
Definition incr_error_count : M unit :=
  fun s => (Ok tt, mkState (fs s) (stdio s) (opened s) (error_count s + 1)).

Definition set_error_count (n : nat) : M unit :=
  fun s => (Ok tt, mkState (fs s) (stdio s) (opened s) n).

Definition get_error_count : M nat :=
  fun s => (Ok (error_count s), s).

Fixpoint for_each {A} (l : list A) (body : A -> M unit) : M unit :=
  match l with
  | [] => ret tt
  | x :: rest => bind (body x) (fun _ => for_each rest body)
  end.

Definition workflows_dir : string := ".github/workflows".

Definition path_of (name : string) : string := workflows_dir +++ "/" +++ name.

(** [workflows_dir.exists()] *)
Definition dir_exists : M bool :=
  fun s => (Ok (match fs s with Some _ => true | None => false end), s).

Fixpoint ends_with (suffix s : string) : bool :=
  String.eqb suffix s
  || match s with
     | EmptyString => false
     | String _ rest => ends_with suffix rest
     end.

(** [workflows_dir.glob('*' + suffix)]: the entries of the directory itself
    whose name ends with [suffix], whatever kind of entry they are. *)
Definition glob (suffix : string) : M (list dirent) :=
  fun s =>
    (Ok (filter (fun e => ends_with suffix (fst e))
           (match fs s with Some entries => entries | None => [] end)), s).

(** [with open(workflow_file, 'r') as f: yaml.safe_load(f)] *)
Definition safe_load_file (workflow_file : dirent) : M value :=
  fun s =>
    let s' := mkState (fs s) (stdio s) (opened s ++ [path_of (fst workflow_file)])
                (error_count s) in
    match snd workflow_file with
    | RegularFile (Loaded doc) => (Ok doc, s')
    | RegularFile (Malformed msg) => (Raise (YAMLError msg), s')
    | RegularFile (Unreadable msg) => (Raise (IOError msg), s')
    | Subdirectory _ => (Raise (IOError "Is a directory"), s')
    end.

(** ** The script *)

Local Open Scope monad_scope.

Definition TARGET : string := "github/codeql-action/analyze".

(** Lines 41-45, the loop over the steps of one job: [true] when a step made
    the script append the job and [break]. *)
Fixpoint scan_steps (steps : list value) : result bool :=
  match steps with
  | [] => Ok false
  | step :: rest =>
      if is_dict step then
        (has_uses <- py_contains "uses" step ;
         if has_uses then
           (uses <- py_getitem step (SStr "uses") ;
            hit <- py_contains TARGET uses ;
            if hit then Ok true else scan_steps rest)
         else scan_steps rest)%result
      else scan_steps rest
  end.

(** Lines 40-45, one job. *)
Definition job_uses_codeql (job_config : value) : result bool :=
  (has_steps <- py_contains "steps" job_config ;
   if has_steps then
     (steps <- py_getitem job_config (SStr "steps") ;
      visited <- py_iter steps ;
      scan_steps visited)
   else Ok false)%result.

(** Lines 38-45, the loop over [workflow['jobs'].items()]; [codeql_jobs] is
    the list built so far. *)
Fixpoint find_codeql_jobs (items : dict) (codeql_jobs : list scalar)
  : result (list scalar) :=
  match items with
  | [] => Ok codeql_jobs
  | (job_name, job_config) :: rest =>
      (hit <- job_uses_codeql job_config ;
       find_codeql_jobs rest
         (if hit then codeql_jobs ++ [job_name] else codeql_jobs))%result
  end.

Section Script.

(** [str(e)] of a caught exception and [str(v)] of a value that is not a
    string are the interpreter's. *)
Variable exn_text : pyexn -> string.
Variable render : value -> string.

(** [str(v)], as an f-string formats [v]. *)
Definition py_str (v : value) : string :=
  match v with
  | VScalar (SStr s) => s
  | _ => render v
  end.

(** Lines 54-59. *)
Definition check_root_permissions (workflow_file : string) (workflow : value)
  : M unit :=
  root_permissions <- lift (py_get workflow "permissions" (VDict [])) ;;
  if is_dict root_permissions then
    has_key <- lift (py_contains "security-events" root_permissions) ;;
    if has_key then
      granted <- lift (py_getitem root_permissions (SStr "security-events")) ;;
      if py_eq_str granted "write" then
        print Stderr ("ERROR: " +++ workflow_file
                      +++ " has security-events: write at root level") ;;
        print Stderr "  Root-level security-events: write should be moved to job level" ;;
        incr_error_count
      else ret tt
    else ret tt
  else ret tt.

(** Lines 63-78, the body of the loop over [codeql_jobs]. *)
Definition check_job (workflow_file : string) (workflow : value)
    (job_name : scalar) : M unit :=
  jobs <- lift (py_getitem workflow (SStr "jobs")) ;;
  job_config <- lift (py_getitem jobs job_name) ;;
  job_permissions <- lift (py_get job_config "permissions" (VDict [])) ;;
  if negb (is_dict job_permissions) then
    print Stderr ("ERROR: " +++ workflow_file +++ " job '"
                  +++ py_str (VScalar job_name)
                  +++ "' has invalid permissions format") ;;
    incr_error_count
  else
    has_key <- lift (py_contains "security-events" job_permissions) ;;
    if negb has_key then
      print Stderr ("ERROR: " +++ workflow_file +++ " job '"
                    +++ py_str (VScalar job_name)
                    +++ "' missing security-events permission") ;;
      incr_error_count
    else
      granted <- lift (py_getitem job_permissions (SStr "security-events")) ;;
      if negb (py_eq_str granted "write") then
        print Stderr ("ERROR: " +++ workflow_file +++ " job '"
                      +++ py_str (VScalar job_name)
                      +++ "' has security-events: " +++ py_str granted
                      +++ ", should be 'write'") ;;
        incr_error_count
      else
        print Stdout ("  OK Job '" +++ py_str (VScalar job_name)
                      +++ "' has correct security-events: write permission").

(** Lines 34-78, what the [try] block does with a loaded document. *)
Definition process_workflow (workflow_file : string) (workflow : value)
  : M unit :=
  if negb (truthy workflow) then ret tt
  else
    has_jobs <- lift (py_contains "jobs" workflow) ;;
    if negb has_jobs then ret tt
    else
      jobs <- lift (py_getitem workflow (SStr "jobs")) ;;
      items <- lift (py_items jobs) ;;
      codeql_jobs <- lift (find_codeql_jobs items []) ;;
      match codeql_jobs with
      | [] => ret tt
      | _ :: _ =>
          print Stdout ("Found CodeQL analyze workflow: " +++ workflow_file) ;;
          names <- lift (str_join ", " codeql_jobs) ;;
          print Stdout ("  Jobs using github/codeql-action/analyze: " +++ names) ;;
          check_root_permissions workflow_file workflow ;;
          for_each codeql_jobs (check_job workflow_file workflow)
      end.

(** Lines 80-85, the two [except] clauses. *)
Definition handle_exception (workflow_file : string) (e : pyexn) : M unit :=
  if is_yaml_error e then
    print Stderr ("ERROR: Failed to parse " +++ workflow_file +++ ": "
                  +++ exn_text e) ;;
    incr_error_count
  else
    print Stderr ("ERROR: Failed to process " +++ workflow_file +++ ": "
                  +++ exn_text e) ;;
    incr_error_count.

(** Lines 30-85, the body of the loop over [workflow_files]. *)
Definition process_file (workflow_file : dirent) : M unit :=
  let path := path_of (fst workflow_file) in
  try_except
    (workflow <- safe_load_file workflow_file ;;
     process_workflow path workflow)
    (handle_exception path).

(** Lines 17-92. *)
Definition validate_codeql_permissions : M nat :=
  set_error_count 0 ;;
  found <- dir_exists ;;
  if negb found then
    print Stderr "ERROR: .github/workflows directory not found" ;;
    ret 1
  else
    yml <- glob ".yml" ;;
    yaml <- glob ".yaml" ;;
    for_each (yml ++ yaml) process_file ;;
    total <- get_error_count ;;
    (if Nat.eqb total 0 then
       print Stdout "OK All CodeQL workflows have correct permissions configuration"
     else
       print Stderr ("ERROR Found " +++ str_of_nat total
                     +++ " permission configuration errors")) ;;
    status <- get_error_count ;;
    ret status.

(** Lines 94-95: the status handed to [sys.exit]. What the operating system
    keeps of it is [exit_status]. *)
Definition main : M nat :=
  status <- validate_codeql_permissions ;;
  ret status.

(** ** What a computation adds to the state *)

(** A directory on which the script has not run yet. *)
Definition initial (d : option (list dirent)) : state := mkState d [] [] 0.

Definition extend (s : state) (o : list line) (p : list string) (n : nat)
  : state :=
  mkState (fs s) (stdio s ++ o) (opened s ++ p) (error_count s + n).

(** [emits m r o p n]: from any state, [m] ends with [r] after printing the
    lines [o], opening the paths [p] and adding [n] to [error_count]. *)
Definition emits {A} (m : M A) (r : result A) (o : list line)
    (p : list string) (n : nat) : Prop :=
  forall s, m s = (r, extend s o p n).

(** A diagnostic is a line on the error stream that starts with [ERROR: ]
    (the closing summary starts with [ERROR Found]). *)
Definition is_diagnostic (l : line) : bool :=
  match fst l with
  | Stderr => starts_with "ERROR: " (snd l)
  | Stdout => false
  end.

Definition diagnostics (o : list line) : nat :=
  List.length (filter is_diagnostic o).

(** [reports m]: [m] only prints and counts, and it counts exactly the
    diagnostics it prints. *)
Definition reports {A} (m : M A) : Prop :=
  exists r o, emits m r o [] (diagnostics o).

(** The same, for a computation that also ends normally. *)
Definition completes (m : M unit) : Prop :=
  exists o, emits m (Ok tt) o [] (diagnostics o).

(** ** The vocabulary of the specification *)

(** A step that references the action: a mapping with a [uses] key whose
    value is a string containing the identifier. *)
Definition step_references_target (step : value) : bool :=
  match step with
  | VDict d =>
      match dict_lookup (SStr "uses") d with
      | Some (VStr u) => substring_of TARGET u
      | _ => false
      end
  | _ => false
  end.

(** A relevant job: at least one of its steps references the action. *)
Definition job_is_relevant (job_config : value) : bool :=
  match job_config with
  | VDict d =>
      match dict_lookup (SStr "steps") d with
      | Some (VList steps) => existsb step_references_target steps
      | _ => false
      end
  | _ => false
  end.

(** The shapes of the data model: a [uses] value is a string, [steps] is a
    sequence, a job is a mapping, [jobs] is a mapping of jobs. *)
Definition step_well_formed (step : value) : bool :=
  match step with
  | VDict d =>
      match dict_lookup (SStr "uses") d with
      | Some (VStr _) => true
      | Some _ => false
      | None => true
      end
  | _ => true
  end.

Definition job_well_formed (job_config : value) : bool :=
  match job_config with
  | VDict d =>
      match dict_lookup (SStr "steps") d with
      | Some (VList steps) => forallb step_well_formed steps
      | Some _ => false
      | None => true
      end
  | _ => false
  end.

Definition jobs_well_formed (items : dict) : bool :=
  forallb (fun kv => job_well_formed (snd kv)) items.

Definition relevant_jobs (items : dict) : list scalar :=
  map fst (filter (fun kv => job_is_relevant (snd kv)) items).

(** Root [permissions] is a mapping that maps [security-events] to
    [write]. *)
Definition root_grants_write (workflow : dict) : bool :=
  match dict_lookup (SStr "permissions") workflow with
  | Some (VDict perms) =>
      match dict_lookup (SStr "security-events") perms with
      | Some granted => py_eq_str granted "write"
      | None => false
      end
  | _ => false
  end.

Definition root_diagnostic (workflow_file : string) : list line :=
  [(Stderr, "ERROR: " +++ workflow_file
            +++ " has security-events: write at root level");
   (Stderr, "  Root-level security-events: write should be moved to job level")].

(** The four outcomes of the job-level rule. *)
Inductive verdict : Type :=
| InvalidFormat
| MissingPermission
| WrongValue (actual : value)
| Granted.

Definition job_verdict (job_config : dict) : verdict :=
  match dict_lookup (SStr "permissions") job_config with
  | None => MissingPermission
  | Some (VDict perms) =>
      match dict_lookup (SStr "security-events") perms with
      | None => MissingPermission
      | Some granted =>
          if py_eq_str granted "write" then Granted else WrongValue granted
      end
  | Some _ => InvalidFormat
  end.

Definition verdict_line (workflow_file : string) (job_name : scalar)
    (v : verdict) : line :=
  match v with
  | InvalidFormat =>
      (Stderr, "ERROR: " +++ workflow_file +++ " job '"
               +++ py_str (VScalar job_name)
               +++ "' has invalid permissions format")
  | MissingPermission =>
      (Stderr, "ERROR: " +++ workflow_file +++ " job '"
               +++ py_str (VScalar job_name)
               +++ "' missing security-events permission")
  | WrongValue actual =>
      (Stderr, "ERROR: " +++ workflow_file +++ " job '"
               +++ py_str (VScalar job_name)
               +++ "' has security-events: " +++ py_str actual
               +++ ", should be 'write'")
  | Granted =>
      (Stdout, "  OK Job '" +++ py_str (VScalar job_name)
               +++ "' has correct security-events: write permission")
  end.

Definition verdict_errors (v : verdict) : nat :=
  match v with
  | Granted => 0
  | _ => 1
  end.

(** The configuration of a job of [items], when it is a mapping. *)
Definition job_config_of (items : dict) (job_name : scalar) : dict :=
  match dict_lookup job_name items with
  | Some (VDict config) => config
  | _ => []
  end.

Definition job_lines (workflow_file : string) (items : dict)
    (codeql_jobs : list scalar) : list line :=
  map (fun job_name =>
         verdict_line workflow_file job_name
           (job_verdict (job_config_of items job_name)))
    codeql_jobs.

Definition job_errors (items : dict) (codeql_jobs : list scalar) : nat :=
  list_sum
    (map (fun job_name =>
            verdict_errors (job_verdict (job_config_of items job_name)))
       codeql_jobs).

Definition header_lines (workflow_file names : string) : list line :=
  [(Stdout, "Found CodeQL analyze workflow: " +++ workflow_file);
   (Stdout, "  Jobs using github/codeql-action/analyze: " +++ names)].

(** The documents the script passes over at line 34-35 without a word. *)
Definition skipped_document (doc : value) : bool :=
  negb (truthy doc)
  || match doc with
     | VDict d => negb (dict_has (SStr "jobs") d)
     | VList l => negb (existsb (fun x => py_eq_str x "jobs") l)
     | VScalar (SStr s) => negb (substring_of "jobs" s)
     | VScalar _ => false
     | VSet _ => false
     end.

(** The files [validate_codeql_permissions] works on. *)
Definition is_workflow_name (name : string) : bool :=
  ends_with ".yml" name || ends_with ".yaml" name.

Definition workflow_files (entries : list dirent) : list dirent :=
  filter (fun e => ends_with ".yml" (fst e)) entries
  ++ filter (fun e => ends_with ".yaml" (fst e)) entries.

(** What the script can see of an entry: its name and what opening it
    gives. The children of a subdirectory are out of its sight. *)
Definition observed (f : dirent) : string * option load_result :=
  (fst f, match snd f with
          | RegularFile content => Some content
          | Subdirectory _ => None
          end).

Definition workflow_entries (entries : list dirent)
  : list (string * option load_result) :=
  map observed (filter (fun e => is_workflow_name (fst e)) entries).

Definition workflow_paths (entries : list dirent) : list string :=
  map (fun f => path_of (fst f)) (workflow_files entries).

Definition missing_directory_line : line :=
  (Stderr, "ERROR: .github/workflows directory not found").

Definition summary_line (total : nat) : line :=
  if Nat.eqb total 0 then
    (Stdout, "OK All CodeQL workflows have correct permissions configuration")
  else
    (Stderr, "ERROR Found " +++ str_of_nat total
             +++ " permission configuration errors").

Definition parse_failure_line (workflow_file : string) (e : pyexn) : line :=
  (Stderr, "ERROR: Failed to parse " +++ workflow_file +++ ": " +++ exn_text e).

Definition processing_failure_line (workflow_file : string) (e : pyexn)
  : line :=
  (Stderr, "ERROR: Failed to process " +++ workflow_file +++ ": "
           +++ exn_text e).

(** A workflow of the data model: a mapping whose [jobs], when present, is
    a mapping of well-formed jobs. *)
Definition workflow_well_formed (doc : value) : bool :=
  match doc with
  | VDict d =>
      match dict_lookup (SStr "jobs") d with
      | Some (VDict items) => jobs_well_formed items
      | Some _ => false
      | None => true
      end
  | _ => false
  end.

Definition workflow_jobs (doc : value) : dict :=
  match doc with
  | VDict d =>
      match dict_lookup (SStr "jobs") d with
      | Some (VDict items) => items
      | _ => []
      end
  | _ => []
  end.

(** The documents the specification says are passed over: empty, not a
    mapping, or a mapping without [jobs]. *)
Definition skipped_as_specified (doc : value) : bool :=
  negb (truthy doc)
  || match doc with
     | VDict d => negb (dict_has (SStr "jobs") d)
     | _ => true
     end.

(** ** Single files and whole runs *)

(** What a file prints and how many errors it adds, processed on its own. *)
Definition file_lines (f : dirent) : list line :=
  stdio (snd (process_file f (initial None))).

Definition file_errors (f : dirent) : nat :=
  error_count (snd (process_file f (initial None))).

(** What the operating system keeps of the status handed to [sys.exit]: on
    POSIX, the low eight bits (of a status within the range of a C long,
    as every count of diagnostics is). *)
Definition exit_status (status : nat) : nat := status mod 256.

Definition success_line : line :=
  (Stdout, "OK All CodeQL workflows have correct permissions configuration").

(** The exception that opening and loading an entry raises, if any. *)
Definition load_error (n : node) : option pyexn :=
  match n with
  | RegularFile (Loaded _) => None
  | RegularFile (Malformed msg) => Some (YAMLError msg)
  | RegularFile (Unreadable msg) => Some (IOError msg)
  | Subdirectory _ => Some (IOError "Is a directory")
  end.

(** The lines the checks of lines 34-78 can print for a file. *)
Inductive workflow_line (path : string) : line -> Prop :=
| found_line :
    workflow_line path (Stdout, "Found CodeQL analyze workflow: " +++ path)
| jobs_line names :
    workflow_line path
      (Stdout, "  Jobs using github/codeql-action/analyze: " +++ names)
| confirmation_line rest :
    workflow_line path (Stdout, "  OK Job '" +++ rest)
| diagnostic_line rest :
    workflow_line path (Stderr, "ERROR: " +++ path +++ rest)
| root_advice_line :
    workflow_line path
      (Stderr, "  Root-level security-events: write should be moved to job level").

(** The lines the loop body of lines 30-85 can print for a file. *)
Inductive file_line (path : string) : line -> Prop :=
| checked_line l : workflow_line path l -> file_line path l
| parse_failure e : file_line path (parse_failure_line path e)
| processing_failure e : file_line path (processing_failure_line path e).

(** A step the scan of lines 41-45 looks into: a mapping with a [uses]
    key. *)
Definition has_uses (step : value) : bool :=
  match step with
  | VDict d => dict_has (SStr "uses") d
  | _ => false
  end.

Definition no_yaml_error {A} (r : result A) : Prop :=
  match r with
  | Ok _ => True
  | Raise e => is_yaml_error e = false
  end.

(** [confined path m]: [m] opens nothing, prints only lines of the checks
    for [path], and raises no [YAMLError]. *)
Definition confined (path : string) {A} (m : M A) : Prop :=
  exists r o n,
    emits m r o [] n /\ Forall (workflow_line path) o /\ no_yaml_error r.

(** ** Two runs of the interpreter *)

(** A value that holds no set, at any depth. Python prints such a value the
    same way in every process; the order in which it prints the elements of
    a set depends on the hash seed of the process. *)
Fixpoint set_free (v : value) : bool :=
  match v with
  | VScalar _ => true
  | VList l => forallb set_free l
  | VDict d => forallb (fun kv => set_free (snd kv)) d
  | VSet _ => false
  end.

(** Two texts printed by two runs: the same text, or two diagnostics with
    the same text around a value that holds a set, which each run prints
    its own way. *)
Inductive alike (print1 print2 : value -> string) : line -> line -> Prop :=
| same_text l : alike print1 print2 l l
| quoted_set before v after :
    set_free v = false ->
    alike print1 print2
      (Stderr, "ERROR: " +++ before +++ print1 v +++ after)
      (Stderr, "ERROR: " +++ before +++ print2 v +++ after).

(** [paired R m1 m2]: [m1] and [m2] end the same way, open the same paths
    and count the same, and what they print is related by [R], text by
    text. *)
Definition paired (R : line -> line -> Prop) {A} (m1 m2 : M A) : Prop :=
  exists r o1 o2 p n,
    emits m1 r o1 p n /\ emits m2 r o2 p n /\ Forall2 R o1 o2.

(** A directory none of whose workflow files holds a set. *)
Definition holds_no_set (f : dirent) : bool :=
  match snd f with
  | RegularFile (Loaded doc) => set_free doc
  | _ => true
  end.

Definition set_free_directory (d : option (list dirent)) : bool :=
  match d with
  | Some entries => forallb holds_no_set (workflow_files entries)
  | None => true
  end.

(** ** Sample inputs *)

(** One way the interpreter may word an exception and print a value. *)
Definition sample_exn_text (e : pyexn) : string :=
  match e with
  | YAMLError msg => msg
  | IOError msg => msg
  | TypeError operation => "TypeError: " +++ operation
  | AttributeError attribute => "no attribute " +++ attribute
  | KeyError _ => "KeyError"
  | IndexError => "IndexError"
  end.

Definition sample_render (v : value) : string :=
  match v with
  | VScalar SNone => "None"
  | VScalar (SBool true) => "True"
  | VScalar (SBool false) => "False"
  | VScalar (SInt n) => NilZero.string_of_int (Z.to_int n)
  | VScalar (SFloat _ text) => text
  | VScalar (SStr s) => s
  | VList _ => "[...]"
  | VDict _ => "{...}"
  | VSet l =>
      "{" +++ String.concat ", "
                (map (fun k => match k with
                               | SStr s => "'" +++ s +++ "'"
                               | _ => "?"
                               end) l)
      +++ "}"
  end.

(** Another process, which visits the elements of a set the other way
    round. *)
Definition sample_render_reversed (v : value) : string :=
  match v with
  | VSet l => sample_render (VSet (rev l))
  | _ => sample_render v
  end.

Definition analyze_step : value :=
  VDict [(SStr "uses", VStr "github/codeql-action/analyze@v3")].

Definition job_with (permissions : list (scalar * value)) : value :=
  VDict ((SStr "steps", VList [analyze_step]) :: permissions).

(** [a.yml] and [b.yml] of the specification's scenarios. *)
Definition a_jobs : dict :=
  [(SStr "analyze",
    job_with [(SStr "permissions",
               VDict [(SStr "security-events", VStr "write")])])].

Definition a_workflow : dict := [(SStr "jobs", VDict a_jobs)].

Definition a_yml : dirent := ("a.yml", RegularFile (Loaded (VDict a_workflow))).

Definition b_jobs : dict :=
  [(SStr "analyze",
    job_with [(SStr "permissions", VDict [(SStr "contents", VStr "read")])])].

Definition b_workflow : dict :=
  [(SStr "permissions", VDict [(SStr "security-events", VStr "write")]);
   (SStr "jobs", VDict b_jobs)].

Definition b_yml : dirent := ("b.yml", RegularFile (Loaded (VDict b_workflow))).

(** A document that is just the number 42. *)
Definition version_yml : dirent :=
  ("version.yml", RegularFile (Loaded (VInt 42))).

(** [jobs: {build: }]: a job declared with nothing under it. *)
Definition stub_yml : dirent :=
  ("stub.yml", RegularFile (Loaded (VDict [
     (SStr "jobs", VDict [(SStr "build", VNone)])]))).

(** A workflow without a [jobs] key. *)
Definition docs_yml : dirent :=
  ("docs.yml", RegularFile (Loaded (VDict [(SStr "name", VStr "docs")]))).

Definition build_job : value :=
  VDict [(SStr "steps", VList [VDict [(SStr "run", VStr "make")]])].

(** A workflow whose only job runs [make]. *)
Definition ci_yml : dirent :=
  ("ci.yml", RegularFile (Loaded (VDict [
     (SStr "jobs", VDict [(SStr "build", build_job)])]))).

Definition sample_jobs : dict :=
  [(SStr "build", build_job); (SStr "analyze", job_with [])].

(** A job whose first step has an empty [uses:] and whose second step uses
    the action. *)
Definition unreadable_step_jobs : dict :=
  [(SStr "analyze",
    VDict [(SStr "steps",
            VList [VDict [(SStr "uses", VNone)]; analyze_step])])].

(** A job written [yes:] in the file: YAML 1.1 reads the key as [True].
    The job uses the action and grants itself the permission. *)
Definition yes_job : dict :=
  [(SBool true,
    job_with [(SStr "permissions",
               VDict [(SStr "security-events", VStr "write")])])].

Definition scan_yml : dirent :=
  ("scan.yml", RegularFile (Loaded (VDict [(SStr "jobs", VDict yes_job)]))).

(** A job written [on:], with the permission at the root and in the job. *)
Definition on_job : dict :=
  [(SBool true,
    job_with [(SStr "permissions",
               VDict [(SStr "security-events", VStr "write")])])].

Definition nightly : dict :=
  [(SStr "permissions", VDict [(SStr "security-events", VStr "write")]);
   (SStr "jobs", VDict on_job)].

Definition nightly_yml : dirent :=
  ("nightly.yml", RegularFile (Loaded (VDict nightly))).

(** Two directories with the same workflow file, and otherwise different. *)
Definition listing1 : list dirent :=
  [a_yml;
   ("notes.txt", RegularFile (Loaded (VDict nightly)));
   ("scripts", Subdirectory [b_yml])].

Definition listing2 : list dirent :=
  [("README.md", RegularFile (Malformed "not YAML"));
   a_yml;
   ("scripts", Subdirectory [])].

(** A job whose [security-events] is the set of [read] and [write]. *)
Definition set_jobs : dict :=
  [(SStr "analyze",
    job_with [(SStr "permissions",
               VDict [(SStr "security-events",
                       VSet [SStr "read"; SStr "write"])])])].

Definition set_yml : dirent :=
  ("set.yml", RegularFile (Loaded (VDict [(SStr "jobs", VDict set_jobs)]))).

(** A file that cannot be read as text, and a directory named like a
    workflow file. *)
Definition binary_yml : dirent :=
  ("binary.yml", RegularFile (Unreadable "invalid start byte")).

Definition archive_yml : dirent := ("archive.yml", Subdirectory [a_yml]).

(** A file that is not YAML. *)
Definition broken_yml : dirent :=
  ("broken.yml", RegularFile (Malformed "mapping values are not allowed here")).

(** [n] files that are not YAML, under distinct names. *)
Definition broken_files (n : nat) : list dirent :=
  map (fun i => (str_of_nat i +++ ".yml", RegularFile (Malformed "not YAML")))
    (seq 0 n).

(** ** Lemmas on the state and on [emits] *)

Lemma extend_nil s : extend s [] [] 0 = s.
Proof.
  destruct s as [d o p n]. unfold extend. simpl.
  now rewrite !app_nil_r, Nat.add_0_r.
Qed.

Lemma extend_extend s o p n o' p' n' :
  extend (extend s o p n) o' p' n' = extend s (o ++ o') (p ++ p') (n + n').
Proof.
  unfold extend. simpl. now rewrite !app_assoc, Nat.add_assoc.
Qed.

Lemma diagnostics_app o o' :
  diagnostics (o ++ o') = diagnostics o + diagnostics o'.
Proof.
  unfold diagnostics. now rewrite filter_app, length_app.
Qed.

Lemma emits_ret {A} (a : A) : emits (ret a) (Ok a) [] [] 0.
Proof. intros s. unfold ret. now rewrite extend_nil. Qed.

Lemma emits_lift {A} (r : result A) : emits (lift r) r [] [] 0.
Proof. intros s. unfold lift. now rewrite extend_nil. Qed.

Lemma emits_print out text : emits (print out text) (Ok tt) [(out, text)] [] 0.
Proof.
  intros s. unfold print, extend. now rewrite app_nil_r, Nat.add_0_r.
Qed.

Lemma emits_incr : emits incr_error_count (Ok tt) [] [] 1.
Proof.
  intros s. unfold incr_error_count, extend. now rewrite !app_nil_r.
Qed.

Lemma emits_bind {A B} (m : M A) (k : A -> M B) a o p n r o' p' n' :
  emits m (Ok a) o p n ->
  emits (k a) r o' p' n' ->
  emits (bind m k) r (o ++ o') (p ++ p') (n + n').
Proof.
  intros Hm Hk s. unfold bind. now rewrite Hm, Hk, extend_extend.
Qed.

Arguments emits_bind {A B m} k {a o p n r o' p' n'} _ _.

Lemma emits_bind_raise {A B} (m : M A) (k : A -> M B) e o p n :
  emits m (Raise e) o p n ->
  emits (bind m k) (Raise e) o p n.
Proof. intros Hm s. unfold bind. now rewrite Hm. Qed.

Arguments emits_bind_raise {A B m} k {e o p n} _.

Lemma emits_try_ok m handler o p n :
  emits m (Ok tt) o p n ->
  emits (try_except m handler) (Ok tt) o p n.
Proof. intros Hm s. unfold try_except. now rewrite Hm. Qed.

Arguments emits_try_ok {m} handler {o p n} _.

Lemma emits_try_raise m handler e o p n r o' p' n' :
  emits m (Raise e) o p n ->
  emits (handler e) r o' p' n' ->
  emits (try_except m handler) r (o ++ o') (p ++ p') (n + n').
Proof.
  intros Hm Hh s. unfold try_except. now rewrite Hm, Hh, extend_extend.
Qed.

Arguments emits_try_raise {m} handler {e o p n r o' p' n'} _ _.

(** [emits] determines what it describes. *)
Lemma emits_functional {A} (m : M A) r o p n r' o' p' n' :
  emits m r o p n -> emits m r' o' p' n' ->
  r = r' /\ o = o' /\ p = p' /\ n = n'.
Proof.
  intros H H'. specialize (H (initial None)). specialize (H' (initial None)).
  rewrite H in H'. unfold extend, initial in H'. simpl in H'.
  injection H' as -> -> -> ->. auto.
Qed.

Create HintDb reports.

Lemma reports_ret {A} (a : A) : reports (ret a).
Proof. exists (Ok a), []. apply emits_ret. Qed.

Lemma reports_lift {A} (r : result A) : reports (lift r).
Proof. exists r, []. apply emits_lift. Qed.

Lemma reports_bind {A B} (m : M A) (k : A -> M B) :
  reports m -> (forall a, reports (k a)) -> reports (bind m k).
Proof.
  intros (r & o & Hm) Hk. destruct r as [a|e].
  - destruct (Hk a) as (r' & o' & Hk').
    exists r', (o ++ o'). rewrite diagnostics_app.
    exact (emits_bind k Hm Hk').
  - exists (Raise e), o. now apply emits_bind_raise.
Qed.

Lemma reports_completes m : completes m -> reports m.
Proof. intros (o & H). now exists (Ok tt), o. Qed.

Lemma completes_ret : completes (ret tt).
Proof. exists []. apply emits_ret. Qed.

Lemma completes_seq (m k : M unit) :
  completes m -> completes k -> completes (bind m (fun _ => k)).
Proof.
  intros (o & Hm) (o' & Hk).
  exists (o ++ o'). rewrite diagnostics_app.
  exact (emits_bind (fun _ => k) Hm Hk).
Qed.

Lemma completes_info text : completes (print Stdout text).
Proof. exists [(Stdout, text)]. apply emits_print. Qed.

(** A diagnostic line and its increment. *)
Lemma completes_diagnostic text :
  completes (bind (print Stderr ("ERROR: " +++ text)) (fun _ => incr_error_count)).
Proof.
  exists [(Stderr, "ERROR: " +++ text)].
  exact (emits_bind (fun _ => incr_error_count)
           (emits_print Stderr ("ERROR: " +++ text)) emits_incr).
Qed.

Lemma completes_try m handler :
  reports m -> (forall e, completes (handler e)) ->
  completes (try_except m handler).
Proof.
  intros (r & o & Hm) Hh. destruct r as [[]|e].
  - exists o. now apply emits_try_ok.
  - destruct (Hh e) as (o' & He).
    exists (o ++ o'). rewrite diagnostics_app.
    exact (emits_try_raise handler Hm He).
Qed.

Lemma completes_for_each {A} (l : list A) (body : A -> M unit) :
  (forall x, completes (body x)) -> completes (for_each l body).
Proof.
  intros Hbody. induction l as [|x l IH]; simpl.
  - apply completes_ret.
  - now apply completes_seq.
Qed.

Lemma reports_for_each {A} (l : list A) (body : A -> M unit) :
  (forall x, reports (body x)) -> reports (for_each l body).
Proof.
  intros Hbody. induction l as [|x l IH]; simpl.
  - apply reports_ret.
  - apply reports_bind; auto.
Qed.

#[local] Hint Resolve reports_ret reports_lift reports_bind reports_completes
  completes_ret completes_seq completes_info completes_diagnostic
  completes_for_each reports_for_each : reports.

Lemma emits_eq {A} (m : M A) r o p n o' p' n' :
  emits m r o p n -> o = o' -> p = p' -> n = n' -> emits m r o' p' n'.
Proof. now intros H <- <- <-. Qed.

(** A computation made of prints, increments and pure steps whose results
    are known: its lines are collected step by step. *)
Ltac emits_step :=
  lazymatch goal with
  | |- emits (bind (print _ _) _) _ _ _ _ =>
      eapply emits_bind; [apply emits_print|]
  | |- emits (bind incr_error_count _) _ _ _ _ =>
      eapply emits_bind; [apply emits_incr|]
  | |- emits (bind (lift _) _) (Raise _) _ _ _ =>
      first [ apply emits_bind_raise; apply emits_lift
            | eapply emits_bind; [apply emits_lift|] ]
  | |- emits (bind (lift _) _) _ _ _ _ =>
      eapply emits_bind; [apply emits_lift|]
  | |- emits (print _ _) _ _ _ _ => apply emits_print
  | |- emits incr_error_count _ _ _ _ => apply emits_incr
  | |- emits (ret _) _ _ _ _ => apply emits_ret
  | |- emits (lift _) _ _ _ _ => apply emits_lift
  end.

(** ** Lemmas on the operations *)

Lemma scalar_eqb_eq a b : scalar_eqb a b = true <-> a = b.
Proof.
  destruct a, b; simpl; split; intros H;
    try discriminate; try reflexivity.
  - apply Bool.eqb_prop in H. now subst.
  - injection H as ->. apply Bool.eqb_reflx.
  - apply Z.eqb_eq in H. now subst.
  - injection H as ->. apply Z.eqb_refl.
  - apply andb_true_iff in H as [H1 H2].
    apply Bool.eqb_prop in H1. apply String.eqb_eq in H2. now subst.
  - injection H as -> ->. now rewrite Bool.eqb_reflx, String.eqb_refl.
  - apply String.eqb_eq in H. now subst.
  - injection H as ->. apply String.eqb_refl.
Qed.

Lemma scalar_eqb_refl a : scalar_eqb a a = true.
Proof. now apply scalar_eqb_eq. Qed.

Lemma dict_has_lookup k d :
  dict_has k d = match dict_lookup k d with Some _ => true | None => false end.
Proof.
  induction d as [|[k' v] d IH]; simpl; [reflexivity|].
  unfold dict_has in *. simpl. now destruct (scalar_eqb k' k).
Qed.

(** In a dict, where keys are distinct, an item is what its key gives. *)
Lemma dict_lookup_in k v (d : dict) :
  NoDup (map fst d) -> In (k, v) d -> dict_lookup k d = Some v.
Proof.
  induction d as [|[k' v'] d IH]; simpl; intros Hnd Hin; [easy|].
  inversion Hnd as [|? ? Hnotin Hnd']; subst.
  destruct Hin as [Heq|Hin].
  - injection Heq as -> ->. now rewrite scalar_eqb_refl.
  - destruct (scalar_eqb k' k) eqn:E.
    + apply scalar_eqb_eq in E. subst k'.
      exfalso. apply Hnotin. change k with (fst (k, v)). now apply in_map.
    + now apply IH.
Qed.

Lemma starts_with_app p s : starts_with p (p +++ s) = true.
Proof.
  induction p as [|a p IH]; simpl; [reflexivity|].
  now rewrite Ascii.eqb_refl.
Qed.

Lemma ends_with_app p suffix : ends_with suffix (p +++ suffix) = true.
Proof.
  induction p as [|a p IH]; simpl.
  - destruct suffix; cbn [ends_with String.append]; now rewrite String.eqb_refl.
  - rewrite IH. apply orb_true_r.
Qed.

(** ** The root-level rule and the job-level rule, step by step *)

(** Running a computation whose branches are decided. *)
Ltac run :=
  cbv [ret bind lift print incr_error_count set_error_count get_error_count
       try_except];
  cbn [fs stdio opened error_count fst snd].

Ltac same_state :=
  repeat match goal with s : state |- _ => destruct s end;
  unfold extend; cbn [fs stdio opened error_count];
  repeat rewrite <- app_assoc; cbn [app];
  rewrite ?app_nil_r, ?Nat.add_0_r, <- ?Nat.add_assoc; cbn [Nat.add];
  try reflexivity.

Ltac decided := run; same_state.

Lemma check_root_emits path (d : dict) :
  emits (check_root_permissions path (VDict d)) (Ok tt)
    (if root_grants_write d then root_diagnostic path else []) []
    (if root_grants_write d then 1 else 0).
Proof.
  intros s. unfold check_root_permissions, root_grants_write, py_get.
  destruct (dict_lookup (SStr "permissions") d) as [[k|l|perms|elements]|];
    cbn [bind lift is_dict py_contains py_getitem]; try solve [decided].
  - rewrite dict_has_lookup.
    destruct (dict_lookup (SStr "security-events") perms) as [granted|];
      [|decided].
    cbn [bind lift]. destruct (py_eq_str granted "write"); decided.
Qed.


Lemma check_job_emits path (d items config : dict) job_name :
  dict_lookup (SStr "jobs") d = Some (VDict items) ->
  dict_lookup job_name items = Some (VDict config) ->
  emits (check_job path (VDict d) job_name) (Ok tt)
    [verdict_line path job_name (job_verdict config)] []
    (verdict_errors (job_verdict config)).
Proof.
  intros Hjobs Hjob s. unfold check_job, job_verdict, py_getitem, py_get.
  rewrite Hjobs. cbn [bind lift]. rewrite Hjob. cbn [bind lift].
  destruct (dict_lookup (SStr "permissions") config) as [[k|l|perms|elements]|];
    cbn [bind lift is_dict negb py_contains verdict_line verdict_errors];
    try solve [decided].
  rewrite dict_has_lookup.
  destruct (dict_lookup (SStr "security-events") perms) as [granted|];
    cbn [bind lift negb verdict_line verdict_errors]; [|decided].
  destruct (py_eq_str granted "write");
    cbn [negb verdict_line verdict_errors]; decided.
Qed.

(** ** Every part of the script counts the diagnostics it prints *)

Lemma completes_root_diagnostic text :
  completes
    (bind (print Stderr ("ERROR: " +++ text))
       (fun _ =>
          bind (print Stderr
                  "  Root-level security-events: write should be moved to job level")
            (fun _ => incr_error_count))).
Proof.
  exists [(Stderr, "ERROR: " +++ text);
          (Stderr, "  Root-level security-events: write should be moved to job level")].
  intros s. decided.
Qed.

#[local] Hint Resolve completes_root_diagnostic : reports.

Ltac reports_cases :=
  repeat first
    [ progress intros
    | apply reports_ret
    | apply reports_lift
    | apply reports_completes; solve [auto with reports]
    | apply reports_bind
    | match goal with
      | |- reports (if ?b then _ else _) => destruct b
      | |- reports (match ?x with _ => _ end) => destruct x
      end ].

Lemma reports_check_root path workflow :
  reports (check_root_permissions path workflow).
Proof.
  unfold check_root_permissions. reports_cases.
Qed.

Lemma reports_check_job path workflow job_name :
  reports (check_job path workflow job_name).
Proof. unfold check_job. reports_cases. Qed.

Lemma reports_process_workflow path workflow :
  reports (process_workflow path workflow).
Proof.
  unfold process_workflow. reports_cases;
    first [ apply reports_check_root
          | apply reports_check_job
          | apply reports_for_each; intros; apply reports_check_job ].
Qed.

Lemma completes_handle_exception path e :
  completes (handle_exception path e).
Proof.
  unfold handle_exception. destruct (is_yaml_error e);
    apply completes_diagnostic.
Qed.

Lemma safe_load_file_emits (f : dirent) :
  emits (safe_load_file f)
    (match snd f with
     | RegularFile (Loaded doc) => Ok doc
     | RegularFile (Malformed msg) => Raise (YAMLError msg)
     | RegularFile (Unreadable msg) => Raise (IOError msg)
     | Subdirectory _ => Raise (IOError "Is a directory")
     end) [] [path_of (fst f)] 0.
Proof.
  intros s. unfold safe_load_file.
  destruct (snd f) as [[doc|msg|msg]|children]; same_state.
Qed.

(** No exception leaves the [try] block of a file, which opens that file
    and no other. *)
Lemma process_file_emits f :
  exists o, emits (process_file f) (Ok tt) o [path_of (fst f)] (diagnostics o).
Proof.
  unfold process_file.
  pose proof (safe_load_file_emits f) as Hload.
  destruct (snd f) as [[doc|msg|msg]|children].
  - destruct (reports_process_workflow (path_of (fst f)) doc) as (r & o & Hw).
    pose proof (emits_bind (process_workflow (path_of (fst f))) Hload Hw) as Hbody.
    destruct r as [[]|e].
    + exists o. now apply emits_try_ok.
    + destruct (completes_handle_exception (path_of (fst f)) e) as (o' & He).
      exists (o ++ o'). rewrite diagnostics_app.
      exact (emits_try_raise _ Hbody He).
  - destruct (completes_handle_exception (path_of (fst f)) (YAMLError msg))
      as (o' & He).
    exists o'. exact (emits_try_raise _ (emits_bind_raise _ Hload) He).
  - destruct (completes_handle_exception (path_of (fst f)) (IOError msg))
      as (o' & He).
    exists o'. exact (emits_try_raise _ (emits_bind_raise _ Hload) He).
  - destruct (completes_handle_exception (path_of (fst f))
                (IOError "Is a directory")) as (o' & He).
    exists o'. exact (emits_try_raise _ (emits_bind_raise _ Hload) He).
Qed.

Lemma process_files_emits (l : list dirent) :
  exists o,
    emits (for_each l process_file) (Ok tt) o
      (map (fun f => path_of (fst f)) l) (diagnostics o).
Proof.
  induction l as [|f l (o' & IH)]; simpl.
  - exists []. apply emits_ret.
  - destruct (process_file_emits f) as (o & Hf).
    exists (o ++ o'). rewrite diagnostics_app.
    exact (emits_bind (fun _ => for_each l process_file) Hf IH).
Qed.


(** ** The whole run *)

Lemma for_each_app {A} (l1 l2 : list A) (body : A -> M unit) s :
  for_each (l1 ++ l2) body s =
  match for_each l1 body s with
  | (Ok tt, s1) => for_each l2 body s1
  | (Raise e, s1) => (Raise e, s1)
  end.
Proof.
  revert s. induction l1 as [|x l1 IH]; intros s; simpl.
  - reflexivity.
  - unfold bind. destruct (body x s) as [[[]|e] s']; [apply IH|reflexivity].
Qed.

Lemma validate_missing o p c :
  validate_codeql_permissions (mkState None o p c)
  = (Ok 1, mkState None (o ++ [missing_directory_line]) p 0).
Proof. reflexivity. Qed.

Lemma validate_present entries o p c lines :
  emits (for_each (workflow_files entries) process_file) (Ok tt) lines
    (workflow_paths entries) (diagnostics lines) ->
  validate_codeql_permissions (mkState (Some entries) o p c)
  = (Ok (diagnostics lines),
     mkState (Some entries)
       (o ++ lines ++ [summary_line (diagnostics lines)])
       (p ++ workflow_paths entries) (diagnostics lines)).
Proof.
  intros H. unfold validate_codeql_permissions, glob, dir_exists.
  cbv [ret bind set_error_count get_error_count negb fs].
  fold (workflow_files entries). rewrite H.
  unfold extend, summary_line, print.
  cbn [fs stdio opened error_count Nat.add].
  destruct (Nat.eqb (diagnostics lines) 0);
    cbn [fs stdio opened error_count]; now rewrite <- app_assoc.
Qed.

(** What a run adds to the state depends on the directory alone. *)
Lemma validate_run (d : option (list dirent)) :
  exists status lines paths total,
    forall o p c,
      validate_codeql_permissions (mkState d o p c)
      = (Ok status, mkState d (o ++ lines) (p ++ paths) total)
      /\ status = diagnostics lines
      /\ paths = match d with Some entries => workflow_paths entries | None => [] end.
Proof.
  destruct d as [entries|].
  - destruct (process_files_emits (workflow_files entries)) as (lines & H).
    exists (diagnostics lines), (lines ++ [summary_line (diagnostics lines)]),
      (workflow_paths entries), (diagnostics lines).
    intros o p c. split; [now apply validate_present|]. split; [|reflexivity].
    rewrite diagnostics_app. unfold summary_line.
    destruct (Nat.eqb (diagnostics lines) 0); cbn; lia.
  - exists 1, [missing_directory_line], [], 0. intros o p c.
    rewrite validate_missing, app_nil_r. now repeat split.
Qed.

Lemma main_is_validate s : main s = validate_codeql_permissions s.
Proof.
  unfold main, bind, ret.
  now destruct (validate_codeql_permissions s) as [[status|e] s'].
Qed.


Lemma filter_narrow {A} (f g : A -> bool) (l : list A) :
  (forall x, f x = true -> g x = true) ->
  filter f (filter g l) = filter f l.
Proof.
  intros Hfg. induction l as [|x l IH]; simpl; [reflexivity|].
  destruct (g x) eqn:Eg; simpl.
  - now rewrite IH.
  - destruct (f x) eqn:Ef; [|exact IH].
    apply Hfg in Ef. congruence.
Qed.

Lemma workflow_files_narrow entries :
  workflow_files (filter (fun e => is_workflow_name (fst e)) entries)
  = workflow_files entries.
Proof.
  unfold workflow_files, is_workflow_name.
  rewrite !filter_narrow; [reflexivity| |]; intros x H; rewrite H;
    auto using orb_true_r.
Qed.

Lemma workflow_files_in f entries :
  In f (workflow_files entries) ->
  In f entries /\ is_workflow_name (fst f) = true.
Proof.
  unfold workflow_files, is_workflow_name. rewrite in_app_iff, !filter_In.
  intros [[Hin H]|[Hin H]]; rewrite H; auto using orb_true_r.
Qed.

Lemma process_file_observed f1 f2 s :
  observed f1 = observed f2 -> process_file f1 s = process_file f2 s.
Proof.
  destruct f1 as [name1 [c1|ch1]], f2 as [name2 [c2|ch2]];
    unfold observed; cbn [fst snd]; intros H;
    try discriminate; injection H as ->; subst; reflexivity.
Qed.

Lemma process_files_observed l1 l2 s :
  map observed l1 = map observed l2 ->
  for_each l1 process_file s = for_each l2 process_file s.
Proof.
  revert l2 s. induction l1 as [|f1 l1 IH]; intros [|f2 l2] s H;
    try discriminate; [reflexivity|].
  cbn [map] in H.
  assert (Hf : observed f1 = observed f2) by congruence.
  assert (Hl : map observed l1 = map observed l2) by congruence.
  cbn [for_each]. unfold bind.
  rewrite (process_file_observed f1 f2 s Hf).
  destruct (process_file f2 s) as [[[]|e] s']; [now apply IH|reflexivity].
Qed.

Lemma filter_observed (keep : string -> bool) l :
  map observed (filter (fun e => keep (fst e)) l)
  = filter (fun e => keep (fst e)) (map observed l).
Proof.
  induction l as [|f l IH]; [reflexivity|].
  cbn [filter map]. change (fst (observed f)) with (fst f).
  destruct (keep (fst f)); cbn [map]; now rewrite IH.
Qed.

Lemma workflow_files_observed entries1 entries2 :
  workflow_entries entries1 = workflow_entries entries2 ->
  map observed (workflow_files entries1)
  = map observed (workflow_files entries2).
Proof.
  unfold workflow_entries. intros H.
  rewrite <- (workflow_files_narrow entries1),
    <- (workflow_files_narrow entries2).
  unfold workflow_files.
  rewrite !map_app, !(filter_observed (ends_with ".yml")),
    !(filter_observed (ends_with ".yaml")).
  now rewrite H.
Qed.

Lemma workflow_paths_observed entries1 entries2 :
  map observed (workflow_files entries1)
  = map observed (workflow_files entries2) ->
  workflow_paths entries1 = workflow_paths entries2.
Proof.
  intros H. unfold workflow_paths.
  change (fun f : dirent => path_of (fst f))
    with (fun f : dirent => path_of (fst (observed f))).
  rewrite <- !(map_map observed (fun x => path_of (fst x))). now rewrite H.
Qed.

Lemma not_yaml_suffix p : ends_with ".yaml" (p +++ ".yml") = false.
Proof.
  induction p as [|a p IH]; [reflexivity|].
  cbn [String.append ends_with]. rewrite IH, orb_false_r.
  apply String.eqb_neq. intros H. injection H as _ H.
  do 5 (destruct p as [|? p]; cbn in H; try discriminate;
        injection H as _ H).
Qed.

Lemma broken_files_are_workflow_files n :
  workflow_files (broken_files n) = broken_files n.
Proof.
  unfold workflow_files, broken_files. generalize (seq 0 n) as l.
  induction l as [|i l IH]; [reflexivity|].
  cbn [map filter fst].
  rewrite ends_with_app, not_yaml_suffix. cbn [app].
  f_equal. exact IH.
Qed.

Lemma parse_failure_emits name msg :
  emits (process_file (name, RegularFile (Malformed msg))) (Ok tt)
    [parse_failure_line (path_of name) (YAMLError msg)] [path_of name] 1.
Proof.
  exact (emits_try_raise _
           (emits_bind_raise _
              (safe_load_file_emits (name, RegularFile (Malformed msg))))
           (emits_bind (fun _ => incr_error_count)
              (emits_print Stderr _) emits_incr)).
Qed.

Lemma malformed_files_emit (l : list (string * string)) :
  let files := map (fun f => (fst f, RegularFile (Malformed (snd f)))) l in
  emits (for_each files process_file) (Ok tt)
    (map (fun f => parse_failure_line (path_of (fst f)) (YAMLError (snd f))) l)
    (map (fun f => path_of (fst f)) l) (List.length l).
Proof.
  induction l as [|[name msg] l IH]; cbn [map for_each List.length fst snd].
  - apply emits_ret.
  - exact (emits_bind _ (parse_failure_emits name msg) IH).
Qed.

Lemma broken_files_status n :
  fst (main (initial (Some (broken_files n)))) = Ok n.
Proof.
  rewrite main_is_validate. unfold initial.
  destruct (process_files_emits (workflow_files (broken_files n)))
    as (lines & H).
  rewrite (validate_present _ _ _ _ _ H). cbn [fst]. f_equal.
  rewrite broken_files_are_workflow_files in H.
  pose proof (malformed_files_emit
                (map (fun i => (str_of_nat i +++ ".yml", "not YAML")) (seq 0 n)))
    as H'.
  cbn zeta in H'. rewrite map_map in H'. cbn [fst snd] in H'.
  fold (broken_files n) in H'.
  destruct (emits_functional _ _ _ _ _ _ _ _ _ H H') as (_ & _ & _ & ->).
  now rewrite length_map, length_seq.
Qed.

(** ** The run as a whole: the claims *)

(** C8. When [.github/workflows] does not exist the run prints one error
    line and hands exit status 1 to [sys.exit]; no file is opened and no
    other line is printed. *)
Theorem missing_directory_aborts_run o p c :
  main (mkState None o p c)
  = (Ok 1, mkState None (o ++ [missing_directory_line]) p 0).
Proof. reflexivity. Qed.


Lemma main_counts_diagnostics s :
  exists status lines paths total,
    main s = (Ok status,
              mkState (fs s) (stdio s ++ lines) (opened s ++ paths) total)
    /\ status = diagnostics lines.
Proof.
  destruct s as [d o p c]. rewrite main_is_validate.
  destruct (validate_run d) as (status & lines & paths & total & H).
  destruct (H o p c) as (-> & -> & _).
  exists (diagnostics lines), lines, paths, total. now split.
Qed.

(** C4, as amended. The status handed to [sys.exit] is the number of
    diagnostics the run printed, whatever the directory, and every number
    is the status of some run, so nothing caps it; the exit status of the
    process is that number when it is below 256. *)
Theorem exit_status_counts_diagnostics :
  (forall s, exists status lines paths total,
      main s = (Ok status,
                mkState (fs s) (stdio s ++ lines) (opened s ++ paths) total)
      /\ status = diagnostics lines
      /\ (diagnostics lines < 256 -> exit_status status = diagnostics lines))
  /\ (forall n, fst (main (initial (Some (broken_files n)))) = Ok n).
Proof.
  split; [|apply broken_files_status].
  intros s.
  destruct (main_counts_diagnostics s)
    as (status & lines & paths & total & Hrun & ->).
  exists (diagnostics lines), lines, paths, total.
  split; [exact Hrun|]. split; [reflexivity|].
  intros Hsmall. unfold exit_status. now apply Nat.mod_small.
Qed.

(** C10. The run depends on the entries of [.github/workflows] itself whose
    name ends with [.yml] or [.yaml], and on nothing else: two directories
    that agree on these entries (whatever their other files and whatever
    their subdirectories hold) give the same lines and the same status, and
    every path opened is such an entry. *)
Theorem only_workflow_files_are_read entries1 entries2 o p c :
  workflow_entries entries1 = workflow_entries entries2 ->
  exists status lines total,
    main (mkState (Some entries1) o p c)
    = (Ok status, mkState (Some entries1) (o ++ lines)
                    (p ++ workflow_paths entries1) total)
    /\ main (mkState (Some entries2) o p c)
       = (Ok status, mkState (Some entries2) (o ++ lines)
                       (p ++ workflow_paths entries1) total)
    /\ Forall (fun path => exists f,
                 In f entries1 /\ is_workflow_name (fst f) = true
                 /\ path = path_of (fst f))
         (workflow_paths entries1).
Proof.
  intros Hsame. apply workflow_files_observed in Hsame.
  destruct (process_files_emits (workflow_files entries1)) as (lines & H).
  exists (diagnostics lines), (lines ++ [summary_line (diagnostics lines)]),
    (diagnostics lines).
  rewrite !main_is_validate. split; [|split].
  - now apply validate_present.
  - pose proof (workflow_paths_observed _ _ Hsame) as Hpaths.
    rewrite Hpaths. apply validate_present. rewrite <- Hpaths.
    intros s. rewrite <- (process_files_observed _ _ s Hsame). apply H.
  - apply Forall_forall. intros path Hin. unfold workflow_paths in Hin.
    apply in_map_iff in Hin as (f & <- & Hin).
    apply workflow_files_in in Hin as [Hin Hname]. now exists f.
Qed.


(** ** One file, from its document *)

Lemma process_file_loaded name doc o n :
  emits (process_workflow (path_of name) doc) (Ok tt) o [] n ->
  emits (process_file (name, RegularFile (Loaded doc))) (Ok tt) o
    [path_of name] n.
Proof.
  intros H.
  exact (emits_try_ok _
           (emits_bind (process_workflow (path_of name))
              (safe_load_file_emits (name, RegularFile (Loaded doc))) H)).
Qed.

Lemma process_file_raises name doc e o n :
  emits (process_workflow (path_of name) doc) (Raise e) o [] n ->
  is_yaml_error e = false ->
  emits (process_file (name, RegularFile (Loaded doc))) (Ok tt)
    (o ++ [processing_failure_line (path_of name) e]) [path_of name] (n + 1).
Proof.
  intros H He.
  assert (Hh : emits (handle_exception (path_of name) e) (Ok tt)
                 [processing_failure_line (path_of name) e] [] 1).
  { unfold handle_exception. rewrite He.
    exact (emits_bind (fun _ => incr_error_count)
             (emits_print Stderr _) emits_incr). }
  exact (emits_try_raise _
           (emits_bind (process_workflow (path_of name))
              (safe_load_file_emits (name, RegularFile (Loaded doc))) H)
           Hh).
Qed.

Lemma skipped_document_emits path doc :
  skipped_document doc = true ->
  emits (process_workflow path doc) (Ok tt) [] [] 0.
Proof.
  unfold skipped_document, process_workflow. intros H s.
  destruct (truthy doc); cbn [negb orb] in *; [|decided].
  destruct doc as [[| | | |str]|l|d|elements]; try discriminate;
    cbn [py_contains bind lift]; rewrite H; decided.
Qed.

(** ** Finding the jobs that use the action *)

Lemma scan_steps_well_formed steps :
  forallb step_well_formed steps = true ->
  scan_steps steps = Ok (existsb step_references_target steps).
Proof.
  induction steps as [|step steps IH]; [reflexivity|].
  cbn [forallb existsb scan_steps]. intros H.
  apply andb_true_iff in H as [Hstep Hrest]. specialize (IH Hrest).
  destruct step as [k|l|d|elements]; cbn [is_dict step_references_target orb];
    try exact IH.
  cbn [py_contains rbind py_getitem]. rewrite dict_has_lookup.
  cbn [step_well_formed] in Hstep.
  destruct (dict_lookup (SStr "uses") d) as [[[| | | |u]|l|d'|elements]|];
    try discriminate; cbn [orb rbind py_contains]; try exact IH.
  destruct (substring_of TARGET u); cbn [orb]; [reflexivity|exact IH].
Qed.

Lemma job_uses_codeql_well_formed job_config :
  job_well_formed job_config = true ->
  job_uses_codeql job_config = Ok (job_is_relevant job_config).
Proof.
  unfold job_well_formed, job_uses_codeql, job_is_relevant.
  destruct job_config as [k|l|d|elements]; try discriminate.
  cbn [py_contains rbind py_getitem]. rewrite dict_has_lookup.
  destruct (dict_lookup (SStr "steps") d) as [[k|steps|d'|elements]|];
    try discriminate; [|reflexivity].
  cbn [rbind py_iter]. apply scan_steps_well_formed.
Qed.

Lemma find_codeql_jobs_well_formed items codeql_jobs :
  jobs_well_formed items = true ->
  find_codeql_jobs items codeql_jobs = Ok (codeql_jobs ++ relevant_jobs items).
Proof.
  unfold jobs_well_formed, relevant_jobs. revert codeql_jobs.
  induction items as [|[job_name job_config] items IH]; intros codeql_jobs H.
  - cbn. now rewrite app_nil_r.
  - cbn [forallb snd] in H. apply andb_true_iff in H as [Hjob Hrest].
    cbn [find_codeql_jobs filter snd].
    rewrite (job_uses_codeql_well_formed _ Hjob). cbn [rbind].
    rewrite (IH _ Hrest).
    destruct (job_is_relevant job_config); cbn [map fst];
      [now rewrite <- app_assoc | reflexivity].
Qed.

(** Once a step has referenced the action, the steps after it are not
    looked at, whatever they are. *)
Lemma scan_steps_stops before hit after :
  forallb step_well_formed before = true ->
  step_references_target hit = true ->
  scan_steps (before ++ hit :: after) = Ok true.
Proof.
  intros Hbefore Hhit. induction before as [|step before IH].
  - cbn [app scan_steps]. unfold step_references_target in Hhit.
    destruct hit as [k|l|d|elements]; try discriminate.
    cbn [is_dict py_contains rbind py_getitem]. rewrite dict_has_lookup.
    destruct (dict_lookup (SStr "uses") d) as [[[| | | |u]|l|d'|elements]|];
      try discriminate.
    cbn [rbind py_contains]. now rewrite Hhit.
  - cbn [forallb] in Hbefore. apply andb_true_iff in Hbefore as [Hstep Hrest].
    specialize (IH Hrest). cbn [app scan_steps].
    destruct step as [k|l|d|elements]; cbn [is_dict]; try exact IH.
    cbn [py_contains rbind py_getitem]. rewrite dict_has_lookup.
    cbn [step_well_formed] in Hstep.
    destruct (dict_lookup (SStr "uses") d) as [[[| | | |u]|l|d'|elements]|];
      try discriminate; cbn [rbind py_contains]; try exact IH.
    destruct (substring_of TARGET u); [reflexivity|exact IH].
Qed.

(** Whatever the documents, a job the script found is a mapping. *)
Lemma job_uses_codeql_is_dict job_config :
  job_uses_codeql job_config = Ok true -> is_dict job_config = true.
Proof.
  unfold job_uses_codeql.
  destruct job_config as [[| | | |str]|l|d|elements]; try discriminate;
    try reflexivity; cbn [py_contains rbind].
  - destruct (substring_of "steps" str); discriminate.
  - destruct (existsb _ l); discriminate.
  - destruct (existsb _ elements); discriminate.
Qed.

Lemma find_codeql_jobs_found items : forall codeql_jobs found job_name,
  find_codeql_jobs items codeql_jobs = Ok found ->
  In job_name found ->
  In job_name codeql_jobs
  \/ exists job_config,
       In (job_name, job_config) items /\ is_dict job_config = true.
Proof.
  induction items as [|[name config] items IH];
    intros codeql_jobs found job_name Hfind Hin.
  - cbn in Hfind. injection Hfind as <-. now left.
  - cbn [find_codeql_jobs] in Hfind.
    destruct (job_uses_codeql config) as [[|]|e] eqn:Euses;
      cbn [rbind] in Hfind; try discriminate.
    + destruct (IH _ _ _ Hfind Hin) as [Hacc|(c & Hc & Hd)].
      * apply in_app_iff in Hacc as [Hacc|[<-|[]]]; [now left|].
        right. exists config. split; [now left|].
        now apply job_uses_codeql_is_dict.
      * right. exists c. split; [now right|exact Hd].
    + destruct (IH _ _ _ Hfind Hin) as [Hacc|(c & Hc & Hd)]; [now left|].
      right. exists c. split; [now right|exact Hd].
Qed.

Lemma found_job_is_dict items found job_name :
  NoDup (map fst items) ->
  find_codeql_jobs items [] = Ok found ->
  In job_name found ->
  exists config, dict_lookup job_name items = Some (VDict config).
Proof.
  intros Hnodup Hfind Hin.
  destruct (find_codeql_jobs_found _ _ _ _ Hfind Hin) as [[]|(c & Hc & Hd)].
  destruct c as [k|l|config|elements]; try discriminate.
  exists config. now apply dict_lookup_in.
Qed.

Lemma job_loop_emits path (d items : dict) codeql_jobs :
  dict_lookup (SStr "jobs") d = Some (VDict items) ->
  (forall job_name, In job_name codeql_jobs ->
     exists config, dict_lookup job_name items = Some (VDict config)) ->
  emits (for_each codeql_jobs (check_job path (VDict d))) (Ok tt)
    (job_lines path items codeql_jobs) [] (job_errors items codeql_jobs).
Proof.
  intros Hjobs. induction codeql_jobs as [|job_name rest IH]; intros Hdict.
  - apply emits_ret.
  - destruct (Hdict job_name (or_introl eq_refl)) as (config & Hconfig).
    pose proof (@check_job_emits path d items config job_name Hjobs Hconfig)
      as Hjob.
    assert (Hrest : forall n, In n rest ->
              exists c, dict_lookup n items = Some (VDict c))
      by (intros n Hn; apply Hdict; now right).
    specialize (IH Hrest).
    unfold job_lines, job_errors, job_config_of in *.
    cbn [map list_sum for_each]. rewrite Hconfig.
    exact (emits_bind (fun _ => for_each rest (check_job path (VDict d)))
             Hjob IH).
Qed.


Lemma relevant_jobs_none items :
  existsb (fun kv => job_is_relevant (snd kv)) items = false ->
  relevant_jobs items = [].
Proof.
  unfold relevant_jobs. induction items as [|kv items IH]; [reflexivity|].
  cbn [existsb filter]. intros H. apply orb_false_iff in H as [-> H].
  now apply IH.
Qed.

Lemma process_workflow_relevant path (d items : dict) codeql_jobs names :
  dict_lookup (SStr "jobs") d = Some (VDict items) ->
  NoDup (map fst items) ->
  find_codeql_jobs items [] = Ok codeql_jobs ->
  codeql_jobs <> [] ->
  all_str codeql_jobs = Some names ->
  emits (process_workflow path (VDict d)) (Ok tt)
    (header_lines path (String.concat ", " names)
     ++ (if root_grants_write d then root_diagnostic path else [])
     ++ job_lines path items codeql_jobs)
    []
    ((if root_grants_write d then 1 else 0) + job_errors items codeql_jobs).
Proof.
  intros Hjobs Hnodup Hfind Hne Hstr. unfold process_workflow.
  assert (Htruthy : truthy (VDict d) = true)
    by (destruct d; [discriminate|reflexivity]).
  rewrite Htruthy. cbn [negb py_contains]. rewrite dict_has_lookup, Hjobs.
  eapply emits_eq.
  { emits_step. cbn [negb py_getitem]. rewrite Hjobs.
    emits_step. cbn [py_items].
    emits_step. cbv beta. rewrite Hfind.
    emits_step. cbv beta.
    destruct codeql_jobs as [|job_name rest]; [contradiction|].
    emits_step. unfold str_join. rewrite Hstr.
    emits_step. cbv beta. emits_step.
    eapply emits_bind; [apply check_root_emits|].
    apply job_loop_emits; [exact Hjobs|].
    intros name Hin. eapply found_job_is_dict; eassumption. }
  all: reflexivity.
Qed.

Lemma process_workflow_none path (d items : dict) :
  dict_lookup (SStr "jobs") d = Some (VDict items) ->
  find_codeql_jobs items [] = Ok [] ->
  emits (process_workflow path (VDict d)) (Ok tt) [] [] 0.
Proof.
  intros Hjobs Hfind s. unfold process_workflow.
  destruct (truthy (VDict d)); cbn [negb]; [|decided].
  cbn [py_contains py_getitem]. rewrite dict_has_lookup, Hjobs.
  cbn [bind lift negb py_items]. rewrite Hfind. decided.
Qed.

(** A line of the job-level rule is never the root-level diagnostic. *)
Lemma append_inj_l p a b : p +++ a = p +++ b -> a = b.
Proof.
  induction p as [|c p IH]; cbn [String.append]; intros H; [exact H|].
  injection H as H. now apply IH.
Qed.

Lemma verdict_line_not_root path job_name v :
  verdict_line path job_name v
  <> (Stderr, "ERROR: " +++ path +++ " has security-events: write at root level").
Proof.
  destruct v; cbn [verdict_line]; intros H; try discriminate;
    injection H as H; apply append_inj_l in H; discriminate.
Qed.

Lemma job_lines_not_root path items codeql_jobs :
  ~ In (Stderr, "ERROR: " +++ path +++ " has security-events: write at root level")
      (job_lines path items codeql_jobs).
Proof.
  unfold job_lines. intros H. apply in_map_iff in H as (job_name & H & _).
  now apply verdict_line_not_root in H.
Qed.


Lemma NoDup_map_filter {A B} (f : A -> B) (keep : A -> bool) (l : list A) :
  NoDup (map f l) -> NoDup (map f (filter keep l)).
Proof.
  induction l as [|x l IH]; cbn [map filter]; intros H; [exact H|].
  inversion H as [|? ? Hnotin Hrest]; subst.
  destruct (keep x); cbn [map]; [|now apply IH].
  constructor; [|now apply IH].
  intros Hin. apply Hnotin. apply in_map_iff in Hin as (y & Hy & Hin).
  apply filter_In in Hin as [Hin _]. apply in_map_iff. now exists y.
Qed.

(** ** The documents: the claims *)

(** C5, as amended. A file whose document is empty, or is a mapping without
    a [jobs] key, or is a string or a sequence that does not contain
    [jobs], is passed over: it is opened, nothing is printed and
    the error count stays as it is. *)
Theorem skipped_documents_are_silent name doc :
  skipped_document doc = true ->
  emits (process_file (name, RegularFile (Loaded doc))) (Ok tt) []
    [path_of name] 0.
Proof.
  intros H. now apply process_file_loaded, skipped_document_emits.
Qed.

(** C3, as amended. When every job is a mapping whose [steps], if present,
    is a sequence whose mapping steps have a string for [uses], the list the
    script builds is the list of the names of the relevant jobs, in the
    order of the [jobs] mapping and each once; and the scan of a job stops
    at the first step that references the action, whatever comes after. *)
Theorem relevant_jobs_are_found items :
  jobs_well_formed items = true ->
  NoDup (map fst items) ->
  find_codeql_jobs items [] = Ok (relevant_jobs items)
  /\ (forall job_name job_config,
        In (job_name, job_config) items ->
        (In job_name (relevant_jobs items)
         <-> job_is_relevant job_config = true))
  /\ NoDup (relevant_jobs items)
  /\ (forall before hit after,
        forallb step_well_formed before = true ->
        step_references_target hit = true ->
        scan_steps (before ++ hit :: after) = Ok true).
Proof.
  intros Hwf Hnodup. repeat split.
  - now rewrite find_codeql_jobs_well_formed.
  - unfold relevant_jobs. intros Hin.
    apply in_map_iff in Hin as ([name config] & Hname & Hin).
    cbn [fst] in Hname. subst name.
    apply filter_In in Hin as [Hin Hrel]. cbn [snd] in Hrel.
    pose proof (dict_lookup_in _ _ _ Hnodup Hin) as E1.
    pose proof (dict_lookup_in _ _ _ Hnodup H) as E2.
    congruence.
  - unfold relevant_jobs. intros Hrel. apply in_map_iff.
    exists (job_name, job_config). split; [reflexivity|].
    apply filter_In. now split.
  - now apply NoDup_map_filter.
  - apply scan_steps_stops.
Qed.

(** C6, as amended. A file whose document is a workflow of the data model
    in which no job references the action is passed over: it is opened,
    nothing is printed and the error count stays as it is. *)
Theorem workflow_without_codeql_is_silent name doc :
  workflow_well_formed doc = true ->
  existsb (fun kv => job_is_relevant (snd kv)) (workflow_jobs doc) = false ->
  emits (process_file (name, RegularFile (Loaded doc))) (Ok tt) []
    [path_of name] 0.
Proof.
  unfold workflow_well_formed, workflow_jobs. intros Hwf Hnone.
  apply process_file_loaded.
  destruct doc as [k|l|d|elements]; try discriminate.
  destruct (dict_lookup (SStr "jobs") d) as [[k|l|items|elements]|] eqn:Hjobs;
    try discriminate.
  - apply process_workflow_none with (items := items); [exact Hjobs|].
    now rewrite (find_codeql_jobs_well_formed items [] Hwf),
      (relevant_jobs_none _ Hnone).
  - apply skipped_document_emits. unfold skipped_document.
    rewrite dict_has_lookup, Hjobs. apply orb_true_r.
Qed.

(** X15. In a workflow of the data model with at least one relevant job,
    all relevant jobs being named by strings, the root-level diagnostic is
    printed, and counted once, exactly when root [permissions] is a mapping
    that maps [security-events] to [write]. *)
Theorem root_rule_flags_write_only name (d items : dict) names :
  dict_lookup (SStr "jobs") d = Some (VDict items) ->
  jobs_well_formed items = true ->
  NoDup (map fst items) ->
  relevant_jobs items <> [] ->
  all_str (relevant_jobs items) = Some names ->
  let path := path_of name in
  let root_line :=
    (Stderr, "ERROR: " +++ path +++ " has security-events: write at root level") in
  exists lines errors,
    emits (process_file (name, RegularFile (Loaded (VDict d)))) (Ok tt)
      lines [path] errors
    /\ lines = header_lines path (String.concat ", " names)
               ++ (if root_grants_write d then root_diagnostic path else [])
               ++ job_lines path items (relevant_jobs items)
    /\ errors = (if root_grants_write d then 1 else 0)
                + job_errors items (relevant_jobs items)
    /\ (In root_line lines <-> root_grants_write d = true).
Proof.
  intros Hjobs Hwf Hnodup Hne Hstr path root_line.
  pose proof (find_codeql_jobs_well_formed items [] Hwf) as Hfind.
  eexists _, _. split; [|split; [reflexivity|split; [reflexivity|]]].
  - apply process_file_loaded.
    now apply process_workflow_relevant with (names := names).
  - rewrite !in_app_iff. split.
    + intros [Hin|[Hin|Hin]].
      * destruct Hin as [Hin|[Hin|[]]]; discriminate.
      * now destruct (root_grants_write d).
      * now apply job_lines_not_root in Hin.
    + intros ->. right. left. now left.
Qed.

(** X14. In a workflow of the data model whose relevant jobs are all named
    by strings, the job-level rule gives every relevant job one outcome, in
    order: a diagnostic for a [permissions] that is not a mapping, for a
    missing [security-events], or for a value that is not [write] (which
    the text names), each counted once, and otherwise a confirmation on the
    standard output that is not counted. *)
Theorem job_rule_gives_one_outcome name (d items : dict) names :
  dict_lookup (SStr "jobs") d = Some (VDict items) ->
  jobs_well_formed items = true ->
  NoDup (map fst items) ->
  relevant_jobs items <> [] ->
  all_str (relevant_jobs items) = Some names ->
  let path := path_of name in
  (forall job_name, In job_name (relevant_jobs items) ->
     exists config, dict_lookup job_name items = Some (VDict config))
  /\ emits (for_each (relevant_jobs items) (check_job path (VDict d))) (Ok tt)
       (job_lines path items (relevant_jobs items)) []
       (job_errors items (relevant_jobs items))
  /\ List.length (job_lines path items (relevant_jobs items))
     = List.length (relevant_jobs items)
  /\ emits (process_file (name, RegularFile (Loaded (VDict d)))) (Ok tt)
       (header_lines path (String.concat ", " names)
        ++ (if root_grants_write d then root_diagnostic path else [])
        ++ job_lines path items (relevant_jobs items))
       [path]
       ((if root_grants_write d then 1 else 0)
        + job_errors items (relevant_jobs items)).
Proof.
  intros Hjobs Hwf Hnodup Hne Hstr path.
  pose proof (find_codeql_jobs_well_formed items [] Hwf) as Hfind.
  assert (Hdict : forall job_name, In job_name (relevant_jobs items) ->
            exists config, dict_lookup job_name items = Some (VDict config))
    by (intros job_name Hin; eapply found_job_is_dict; eassumption).
  split; [exact Hdict|]. split; [now apply job_loop_emits|].
  split; [apply length_map|].
  apply process_file_loaded.
  now apply process_workflow_relevant with (names := names).
Qed.


(** ** Strings: prefixes, suffixes and substrings *)

Lemma starts_with_iff p s :
  starts_with p s = true <-> exists rest, s = p +++ rest.
Proof.
  revert s. induction p as [|a p IH]; intros s; cbn [starts_with].
  - split; [intros _; now exists s | reflexivity].
  - destruct s as [|b s].
    + split; [discriminate | intros (rest & H); discriminate].
    + rewrite andb_true_iff, Ascii.eqb_eq, IH. split.
      * intros (-> & rest & ->). now exists rest.
      * intros (rest & H). cbn [String.append] in H.
        injection H as -> ->. split; [reflexivity | now exists rest].
Qed.

Lemma substring_of_iff needle hay :
  substring_of needle hay = true
  <-> exists before after, hay = before +++ needle +++ after.
Proof.
  induction hay as [|c hay IH]; cbn [substring_of].
  - rewrite orb_false_r, starts_with_iff. split.
    + intros (rest & H). now exists EmptyString, rest.
    + intros (before & after & H). destruct before; [now exists after|].
      discriminate.
  - rewrite orb_true_iff, starts_with_iff, IH. split.
    + intros [(rest & H)|(before & after & H)].
      * now exists EmptyString, rest.
      * exists (String c before), after. cbn [String.append]. now rewrite H.
    + intros (before & after & H). destruct before as [|b before].
      * left. now exists after.
      * right. cbn [String.append] in H. injection H as _ H.
        now exists before, after.
Qed.

Lemma ends_with_split suffix s :
  ends_with suffix s = true -> exists p, s = p +++ suffix.
Proof.
  induction s as [|c s IH]; cbn [ends_with].
  - rewrite orb_false_r. intros H. apply String.eqb_eq in H.
    now exists EmptyString.
  - intros H. apply orb_true_iff in H as [H|H].
    + apply String.eqb_eq in H. now exists EmptyString.
    + destruct (IH H) as (p & ->). now exists (String c p).
Qed.

Lemma yml_yaml_apart p : forall q, p +++ ".yml" <> q +++ ".yaml".
Proof.
  induction p as [|a p IH]; intros q H.
  - do 5 (destruct q as [|? q]; cbn in H; try discriminate;
          injection H as _ H).
  - destruct q as [|b q]; cbn [String.append] in H.
    + injection H as _ H.
      do 5 (destruct p as [|? p]; cbn in H; try discriminate;
            injection H as _ H).
    + injection H as _ H. now apply IH in H.
Qed.

Lemma yml_is_not_yaml name :
  ends_with ".yml" name = true -> ends_with ".yaml" name = false.
Proof.
  intros Hyml. destruct (ends_with ".yaml" name) eqn:Hyaml; [|reflexivity].
  apply ends_with_split in Hyml as (p & ->).
  apply ends_with_split in Hyaml as (q & H).
  now apply yml_yaml_apart in H.
Qed.

Lemma path_of_inj a b : path_of a = path_of b -> a = b.
Proof.
  unfold path_of. intros H.
  apply append_inj_l in H. now apply (append_inj_l "/") in H.
Qed.

(** ** A file on its own, and the files of a run together *)

Lemma process_file_report f :
  emits (process_file f) (Ok tt) (file_lines f) [path_of (fst f)]
    (file_errors f)
  /\ file_errors f = diagnostics (file_lines f).
Proof.
  destruct (process_file_emits f) as (o & H).
  unfold file_lines, file_errors. rewrite (H (initial None)).
  cbn [snd extend initial stdio error_count app Nat.add]. now split.
Qed.

Lemma process_files_report l :
  emits (for_each l process_file) (Ok tt) (flat_map file_lines l)
    (map (fun f => path_of (fst f)) l) (list_sum (map file_errors l)).
Proof.
  induction l as [|f l IH]; cbn [for_each flat_map map list_sum].
  - apply emits_ret.
  - exact (emits_bind (fun _ => for_each l process_file)
             (proj1 (process_file_report f)) IH).
Qed.

Lemma diagnostics_flat_map l :
  diagnostics (flat_map file_lines l) = list_sum (map file_errors l).
Proof.
  induction l as [|f l IH]; [reflexivity|].
  cbn [flat_map map list_sum]. rewrite diagnostics_app, IH.
  now rewrite (proj2 (process_file_report f)).
Qed.

Lemma run_report entries o p c :
  main (mkState (Some entries) o p c)
  = (Ok (list_sum (map file_errors (workflow_files entries))),
     mkState (Some entries)
       (o ++ flat_map file_lines (workflow_files entries)
          ++ [summary_line (list_sum (map file_errors (workflow_files entries)))])
       (p ++ workflow_paths entries)
       (list_sum (map file_errors (workflow_files entries)))).
Proof.
  rewrite main_is_validate.
  pose proof (process_files_report (workflow_files entries)) as H.
  rewrite <- diagnostics_flat_map in *.
  now apply validate_present.
Qed.


(** ** The order of the listing *)

Lemma filter_permutation {A} (keep : A -> bool) l l' :
  Permutation l l' -> Permutation (filter keep l) (filter keep l').
Proof.
  induction 1 as [|x l l' _ IH|x y l|l l' l'' _ IH1 _ IH2]; cbn [filter].
  - constructor.
  - destruct (keep x); [now constructor | exact IH].
  - destruct (keep x), (keep y); try reflexivity. constructor.
  - now transitivity (filter keep l').
Qed.

Lemma flat_map_permutation {A B} (g : A -> list B) l l' :
  Permutation l l' -> Permutation (flat_map g l) (flat_map g l').
Proof.
  induction 1 as [|x l l' _ IH|x y l|l l' l'' _ IH1 _ IH2]; cbn [flat_map].
  - constructor.
  - now apply Permutation_app_head.
  - rewrite !app_assoc. apply Permutation_app_tail, Permutation_app_comm.
  - now transitivity (flat_map g l').
Qed.

Lemma workflow_files_permutation entries entries' :
  Permutation entries entries' ->
  Permutation (workflow_files entries) (workflow_files entries').
Proof.
  intros H. unfold workflow_files.
  apply Permutation_app; now apply filter_permutation.
Qed.

(** The two globs of line 27 share no entry: together they are the entries
    with a workflow name, in another order. *)
Lemma workflow_files_are_the_named entries :
  Permutation (workflow_files entries)
    (filter (fun e => is_workflow_name (fst e)) entries).
Proof.
  unfold workflow_files, is_workflow_name.
  induction entries as [|e entries IH]; cbn [filter]; [constructor|].
  destruct (ends_with ".yml" (fst e)) eqn:Hyml.
  - rewrite (yml_is_not_yaml _ Hyml). cbn [orb app]. now constructor.
  - cbn [orb]. destruct (ends_with ".yaml" (fst e)); [|exact IH].
    symmetry. apply Permutation_cons_app. now symmetry.
Qed.

Lemma NoDup_map_injective {A B} (g : A -> B) l :
  (forall a b, g a = g b -> a = b) -> NoDup l -> NoDup (map g l).
Proof.
  intros Hinj. induction 1 as [|x l Hnotin _ IH]; cbn [map]; constructor.
  - intros Hin. apply in_map_iff in Hin as (y & Hy & Hin).
    apply Hinj in Hy. now subst y.
  - exact IH.
Qed.

(** X3. On an existing directory the run is the files one after the other:
    it prints what each workflow file prints on its own, the [.yml] entries
    first and the [.yaml] entries after them, then one summary line; its
    status is the sum of the errors of the files. *)
Theorem run_is_the_files_in_turn entries o p c :
  main (mkState (Some entries) o p c)
  = (Ok (list_sum (map file_errors (workflow_files entries))),
     mkState (Some entries)
       (o ++ flat_map file_lines (workflow_files entries)
          ++ [summary_line (list_sum (map file_errors (workflow_files entries)))])
       (p ++ workflow_paths entries)
       (list_sum (map file_errors (workflow_files entries)))).
Proof. apply run_report. Qed.

(** X4. The status does not depend on the order in which the directory
    lists its entries, and neither do the lines of the files nor the paths
    opened, up to their order. *)
Theorem status_ignores_listing_order entries entries' :
  Permutation entries entries' ->
  exists status lines lines' paths paths' total,
    main (initial (Some entries))
    = (Ok status, mkState (Some entries) (lines ++ [summary_line status])
                    paths total)
    /\ main (initial (Some entries'))
       = (Ok status, mkState (Some entries') (lines' ++ [summary_line status])
                       paths' total)
    /\ Permutation lines lines' /\ Permutation paths paths'.
Proof.
  intros H. apply workflow_files_permutation in H.
  assert (Hsum : list_sum (map file_errors (workflow_files entries))
                 = list_sum (map file_errors (workflow_files entries'))).
  { apply Permutation_list_sum. now apply Permutation_map. }
  exists (list_sum (map file_errors (workflow_files entries))),
    (flat_map file_lines (workflow_files entries)),
    (flat_map file_lines (workflow_files entries')),
    (workflow_paths entries), (workflow_paths entries'),
    (list_sum (map file_errors (workflow_files entries))).
  unfold initial. rewrite !run_report, <- Hsum. cbn [app].
  repeat split.
  - now apply flat_map_permutation.
  - unfold workflow_paths. now apply Permutation_map.
Qed.

(** X2. No entry is processed twice: a name cannot end with both [.yml]
    and [.yaml], so the files of a run are the entries with a workflow
    name, each once, and in a directory, where names are distinct, the
    paths opened are distinct. *)
Theorem no_entry_is_processed_twice entries :
  NoDup (map fst entries) ->
  Permutation (workflow_files entries)
    (filter (fun e => is_workflow_name (fst e)) entries)
  /\ NoDup (workflow_paths entries).
Proof.
  intros Hnodup. split; [apply workflow_files_are_the_named|].
  unfold workflow_paths.
  rewrite <- (map_map fst path_of).
  apply NoDup_map_injective; [apply path_of_inj|].
  apply (Permutation_NoDup
           (l := map fst (filter (fun e => is_workflow_name (fst e)) entries))).
  - symmetry. apply Permutation_map, workflow_files_are_the_named.
  - now apply NoDup_map_filter.
Qed.


(** ** The lines of a file *)

Lemma no_yaml_rbind {A B} (r : result A) (k : A -> result B) :
  no_yaml_error r -> (forall a, no_yaml_error (k a)) ->
  no_yaml_error (rbind r k).
Proof. destruct r as [a|e]; cbn; auto. Qed.

Lemma no_yaml_py_contains needle v : no_yaml_error (py_contains needle v).
Proof. now destruct v as [[]| | |]. Qed.

Lemma no_yaml_py_getitem v key : no_yaml_error (py_getitem v key).
Proof.
  destruct v as [[| | | |s]|l|d|elements]; cbn; try reflexivity.
  - destruct (as_index key); [|reflexivity].
    now destruct (seq_index (chars s) z).
  - destruct (as_index key); [|reflexivity]. now destruct (seq_index l z).
  - now destruct (dict_lookup key d).
Qed.

Lemma no_yaml_py_get v key default : no_yaml_error (py_get v key default).
Proof.
  destruct v as [k|l|d|elements]; cbn; try reflexivity.
  now destruct (dict_lookup (SStr key) d).
Qed.

Lemma no_yaml_py_items v : no_yaml_error (py_items v).
Proof. now destruct v. Qed.

Lemma no_yaml_py_iter v : no_yaml_error (py_iter v).
Proof. now destruct v as [[]| | |]. Qed.

Lemma no_yaml_str_join sep l : no_yaml_error (str_join sep l).
Proof. unfold str_join. now destruct (all_str l). Qed.

Lemma no_yaml_scan_steps steps : no_yaml_error (scan_steps steps).
Proof.
  induction steps as [|step steps IH]; cbn [scan_steps]; [exact I|].
  destruct (is_dict step); [|exact IH].
  apply no_yaml_rbind; [apply no_yaml_py_contains|]. intros [|]; [|exact IH].
  apply no_yaml_rbind; [apply no_yaml_py_getitem|]. intros uses.
  apply no_yaml_rbind; [apply no_yaml_py_contains|]. intros [|];
    [exact I | exact IH].
Qed.

Lemma no_yaml_job_uses_codeql job_config :
  no_yaml_error (job_uses_codeql job_config).
Proof.
  unfold job_uses_codeql.
  apply no_yaml_rbind; [apply no_yaml_py_contains|]. intros [|]; [|exact I].
  apply no_yaml_rbind; [apply no_yaml_py_getitem|]. intros steps.
  apply no_yaml_rbind; [apply no_yaml_py_iter|]. intros visited.
  apply no_yaml_scan_steps.
Qed.

Lemma no_yaml_find_codeql_jobs items :
  forall codeql_jobs, no_yaml_error (find_codeql_jobs items codeql_jobs).
Proof.
  induction items as [|[job_name job_config] items IH]; intros codeql_jobs;
    cbn [find_codeql_jobs]; [exact I|].
  apply no_yaml_rbind; [apply no_yaml_job_uses_codeql|]. intros hit.
  apply IH.
Qed.

Lemma confined_ret path {A} (a : A) : confined path (ret a).
Proof. exists (Ok a), [], 0. repeat split; [apply emits_ret|constructor]. Qed.

Lemma confined_lift path {A} (r : result A) :
  no_yaml_error r -> confined path (lift r).
Proof.
  intros H. exists r, [], 0. repeat split;
    [apply emits_lift | constructor | exact H].
Qed.

Lemma confined_print path out text :
  workflow_line path (out, text) -> confined path (print out text).
Proof.
  intros H. exists (Ok tt), [(out, text)], 0.
  repeat split; [apply emits_print | now constructor].
Qed.

Lemma confined_incr path : confined path incr_error_count.
Proof.
  exists (Ok tt), [], 1. repeat split; [apply emits_incr | constructor].
Qed.

Lemma confined_bind path {A B} (m : M A) (k : A -> M B) :
  confined path m -> (forall a, confined path (k a)) ->
  confined path (bind m k).
Proof.
  intros (r & o & n & Hm & Ho & Hr) Hk. destruct r as [a|e].
  - destruct (Hk a) as (r' & o' & n' & Hk' & Ho' & Hr').
    exists r', (o ++ o'), (n + n'). repeat split.
    + exact (emits_bind k Hm Hk').
    + apply Forall_app. now split.
    + exact Hr'.
  - exists (Raise e), o, n. repeat split;
      [now apply emits_bind_raise | exact Ho | exact Hr].
Qed.

Lemma confined_for_each path {A} (l : list A) (body : A -> M unit) :
  (forall x, confined path (body x)) -> confined path (for_each l body).
Proof.
  intros Hbody. induction l as [|x l IH]; cbn [for_each].
  - apply confined_ret.
  - apply confined_bind; auto.
Qed.

Ltac confined_cases :=
  repeat first
    [ progress intros
    | apply confined_ret
    | apply confined_incr
    | apply confined_print; constructor
    | apply confined_lift;
      first [ apply no_yaml_py_contains | apply no_yaml_py_getitem
            | apply no_yaml_py_get | apply no_yaml_py_items
            | apply no_yaml_str_join | apply no_yaml_find_codeql_jobs ]
    | apply confined_bind
    | match goal with
      | |- confined _ (if ?b then _ else _) => destruct b
      | |- confined _ (match ?x with _ => _ end) => destruct x
      end ].

Lemma confined_check_root path workflow :
  confined path (check_root_permissions path workflow).
Proof. unfold check_root_permissions. confined_cases. Qed.

Lemma confined_check_job path workflow job_name :
  confined path (check_job path workflow job_name).
Proof. unfold check_job. confined_cases. Qed.

Lemma confined_process_workflow path workflow :
  confined path (process_workflow path workflow).
Proof.
  unfold process_workflow. confined_cases;
    first [ apply confined_check_root
          | apply confined_check_job
          | apply confined_for_each; intros; apply confined_check_job ].
Qed.

(** What a file prints, by the way its loading ends. *)
Lemma process_file_by_load name n :
  match load_error n with
  | Some e =>
      emits (process_file (name, n)) (Ok tt)
        [if is_yaml_error e then parse_failure_line (path_of name) e
         else processing_failure_line (path_of name) e]
        [path_of name] 1
  | None =>
      exists r o errors,
        emits (process_workflow (path_of name)
                 match n with
                 | RegularFile (Loaded doc) => doc
                 | _ => VNone
                 end) r o [] errors
        /\ Forall (workflow_line (path_of name)) o
        /\ match r with
           | Ok _ =>
               emits (process_file (name, n)) (Ok tt) o [path_of name] errors
           | Raise e =>
               is_yaml_error e = false
               /\ emits (process_file (name, n)) (Ok tt)
                    (o ++ [processing_failure_line (path_of name) e])
                    [path_of name] (errors + 1)
           end
  end.
Proof.
  destruct n as [[doc|msg|msg]|children]; cbn [load_error is_yaml_error].
  - destruct (confined_process_workflow (path_of name) doc)
      as (r & o & errors & Hw & Ho & Hr).
    exists r, o, errors. split; [exact Hw|]. split; [exact Ho|].
    destruct r as [[]|e].
    + now apply process_file_loaded.
    + split; [exact Hr|]. now apply process_file_raises.
  - apply parse_failure_emits.
  - exact (emits_try_raise _
             (emits_bind_raise _
                (safe_load_file_emits (name, RegularFile (Unreadable msg))))
             (emits_bind (fun _ => incr_error_count)
                (emits_print Stderr _) emits_incr)).
  - exact (emits_try_raise _
             (emits_bind_raise _
                (safe_load_file_emits (name, Subdirectory children)))
             (emits_bind (fun _ => incr_error_count)
                (emits_print Stderr _) emits_incr)).
Qed.


Lemma file_lines_grammar f : Forall (file_line (path_of (fst f))) (file_lines f).
Proof.
  destruct f as [name n]. cbn [fst].
  pose proof (proj1 (process_file_report (name, n))) as Hreport.
  cbn [fst] in Hreport.
  pose proof (process_file_by_load name n) as Hload.
  destruct (load_error n) as [e|].
  - destruct (emits_functional _ _ _ _ _ _ _ _ _ Hreport Hload)
      as (_ & -> & _).
    constructor; [|constructor].
    destruct (is_yaml_error e);
      [apply parse_failure | apply processing_failure].
  - destruct Hload as (r & o & errors & _ & Ho & Hfile).
    assert (Hchecked : Forall (file_line (path_of name)) o).
    { eapply Forall_impl; [|exact Ho]. intros l Hl. now constructor. }
    destruct r as [a|e].
    + destruct (emits_functional _ _ _ _ _ _ _ _ _ Hreport Hfile)
        as (_ & -> & _).
      exact Hchecked.
    + destruct Hfile as (_ & Hfile).
      destruct (emits_functional _ _ _ _ _ _ _ _ _ Hreport Hfile)
        as (_ & -> & _).
      apply Forall_app. split; [exact Hchecked|].
      constructor; [apply processing_failure | constructor].
Qed.

Lemma file_line_is_no_summary path l total :
  file_line path l -> l <> summary_line total.
Proof.
  unfold summary_line, parse_failure_line, processing_failure_line.
  intros Hl H.
  destruct Hl as [l [|names|rest|rest|]|e|e];
    destruct (Nat.eqb total 0); cbn in H; discriminate.
Qed.

Lemma job_errors_zero items codeql_jobs :
  job_errors items codeql_jobs = 0
  <-> Forall (fun job_name =>
                job_verdict (job_config_of items job_name) = Granted)
        codeql_jobs.
Proof.
  unfold job_errors. induction codeql_jobs as [|job_name rest IH];
    cbn [map list_sum].
  - split; [constructor | reflexivity].
  - rewrite Forall_cons_iff, <- IH.
    destruct (job_verdict (job_config_of items job_name));
      cbn [verdict_errors]; split;
      try (intros H; discriminate H);
      try (intros [H _]; discriminate H); auto.
    intros [_ H]. exact H.
Qed.

Lemma job_errors_bound items codeql_jobs :
  job_errors items codeql_jobs <= List.length codeql_jobs.
Proof.
  unfold job_errors. induction codeql_jobs as [|job_name rest IH];
    [apply Nat.le_refl|].
  change (verdict_errors (job_verdict (job_config_of items job_name))
          + list_sum
              (map (fun job_name =>
                      verdict_errors (job_verdict (job_config_of items job_name)))
                 rest)
          <= S (List.length rest)).
  destruct (job_verdict (job_config_of items job_name));
    cbn [verdict_errors]; lia.
Qed.

Lemma process_workflow_unnamed path (d items : dict) codeql_jobs :
  dict_lookup (SStr "jobs") d = Some (VDict items) ->
  find_codeql_jobs items [] = Ok codeql_jobs ->
  codeql_jobs <> [] ->
  all_str codeql_jobs = None ->
  emits (process_workflow path (VDict d)) (Raise (TypeError "join"))
    [(Stdout, "Found CodeQL analyze workflow: " +++ path)] [] 0.
Proof.
  intros Hjobs Hfind Hne Hstr. unfold process_workflow.
  assert (Htruthy : truthy (VDict d) = true)
    by (destruct d; [discriminate|reflexivity]).
  rewrite Htruthy. cbn [negb py_contains]. rewrite dict_has_lookup, Hjobs.
  eapply emits_eq.
  { eapply emits_bind; [apply emits_lift|]. cbn [negb py_getitem].
    rewrite Hjobs.
    eapply emits_bind; [apply emits_lift|]. cbn [py_items].
    eapply emits_bind; [apply emits_lift|]. cbv beta. rewrite Hfind.
    eapply emits_bind; [apply emits_lift|]. cbv beta.
    destruct codeql_jobs as [|job_name rest]; [contradiction|].
    eapply emits_bind; [apply emits_print|]. unfold str_join. rewrite Hstr.
    apply emits_bind_raise. apply emits_lift. }
  all: reflexivity.
Qed.

(** ** More of what the script does *)

(** X1. An entry with a workflow name that cannot be opened or read (a file
    that is not text, a directory) gets exactly one diagnostic, the one of
    a failed processing, which names it, and one increment of the error
    count; the loop goes on. *)
Theorem unreadable_entry_is_one_diagnostic name n e :
  load_error n = Some e ->
  is_yaml_error e = false ->
  emits (process_file (name, n)) (Ok tt)
    [processing_failure_line (path_of name) e] [path_of name] 1.
Proof.
  intros Hload Hyaml. pose proof (process_file_by_load name n) as H.
  rewrite Hload, Hyaml in H. exact H.
Qed.

(** X11. When a document loads, an exception raised while it is checked
    ends the checks of that file and is reported once, as a failed
    processing, after the lines printed so far, which stay; such a file
    never gets the diagnostic of a failed parse. *)
Theorem check_failure_is_reported_once name doc :
  exists r o errors,
    emits (process_workflow (path_of name) doc) r o [] errors
    /\ Forall (workflow_line (path_of name)) o
    /\ match r with
       | Ok _ =>
           emits (process_file (name, RegularFile (Loaded doc))) (Ok tt) o
             [path_of name] errors
       | Raise e =>
           is_yaml_error e = false
           /\ emits (process_file (name, RegularFile (Loaded doc))) (Ok tt)
                (o ++ [processing_failure_line (path_of name) e])
                [path_of name] (errors + 1)
       end.
Proof. exact (process_file_by_load name (RegularFile (Loaded doc))). Qed.

(** X6. Every text that one call of [print] writes while a file is
    processed has one of seven forms, and every diagnostic among them
    carries the path of the file. *)
Theorem every_line_is_about_its_file f :
  Forall (file_line (path_of (fst f))) (file_lines f)
  /\ Forall (fun l =>
               is_diagnostic l = true ->
               exists rest,
                 snd l = "ERROR: " +++ path_of (fst f) +++ rest
                 \/ snd l = "ERROR: Failed to parse " +++ path_of (fst f) +++ rest
                 \/ snd l = "ERROR: Failed to process " +++ path_of (fst f) +++ rest)
       (file_lines f).
Proof.
  split; [apply file_lines_grammar|].
  eapply Forall_impl; [|apply file_lines_grammar].
  intros l Hl Hdiag.
  destruct Hl as [l [|names|rest|rest|]|e|e]; try discriminate Hdiag.
  - exists rest. now left.
  - eexists. right. left. reflexivity.
  - eexists. right. right. reflexivity.
Qed.

(** X5. On an existing directory the summary is printed once, by the last
    call of [print], and no text printed for a file by one call equals it;
    it is the text of success exactly when the status is 0, and otherwise
    the text on the error stream that gives the status. *)
Theorem summary_is_the_last_line entries o p c :
  exists status lines,
    main (mkState (Some entries) o p c)
    = (Ok status,
       mkState (Some entries) (o ++ lines ++ [summary_line status])
         (p ++ workflow_paths entries) status)
    /\ (forall total, ~ In (summary_line total) lines)
    /\ (summary_line status = success_line <-> status = 0).
Proof.
  exists (list_sum (map file_errors (workflow_files entries))),
    (flat_map file_lines (workflow_files entries)).
  split; [apply run_report|]. split.
  - intros total Hin. apply in_flat_map in Hin as (f & _ & Hin).
    pose proof (file_lines_grammar f) as Hgrammar.
    rewrite Forall_forall in Hgrammar.
    now apply (file_line_is_no_summary _ _ total (Hgrammar _ Hin)).
  - unfold summary_line, success_line.
    destruct (Nat.eqb _ 0) eqn:E.
    + apply Nat.eqb_eq in E. now split.
    + apply Nat.eqb_neq in E. split; [discriminate | contradiction].
Qed.



(** X9. The scan of a job looks only into the steps that are mappings with
    a [uses] key: any other step changes nothing, whatever it is. *)
Theorem scan_skips_steps_without_uses steps :
  scan_steps steps = scan_steps (filter has_uses steps).
Proof.
  induction steps as [|step steps IH]; [reflexivity|].
  cbn [scan_steps filter].
  destruct step as [k|l|d|elements]; cbn [is_dict has_uses]; try exact IH.
  cbn [py_contains rbind].
  destruct (dict_has (SStr "uses") d) eqn:Huses; [|exact IH].
  cbn [scan_steps is_dict py_contains rbind]. rewrite Huses.
  destruct (py_getitem (VDict d) (SStr "uses")) as [uses|e]; [|reflexivity].
  cbn [rbind]. destruct (py_contains TARGET uses) as [[|]|e];
    cbn [rbind]; [reflexivity | exact IH | reflexivity].
Qed.

(** X10. A [uses] string references the action exactly when the identifier
    occurs somewhere in it: a version after it, or a longer name around it,
    match as well. *)
Theorem action_is_matched_anywhere u :
  scan_steps [VDict [(SStr "uses", VStr u)]] = Ok true
  <-> exists before after, u = before +++ TARGET +++ after.
Proof.
  rewrite <- substring_of_iff. cbn.
  destruct (substring_of TARGET u); split; intros H;
    try reflexivity; discriminate H.
Qed.


Lemma process_workflow_failed_search path (d items : dict) e :
  dict_lookup (SStr "jobs") d = Some (VDict items) ->
  find_codeql_jobs items [] = Raise e ->
  emits (process_workflow path (VDict d)) (Raise e) [] [] 0.
Proof.
  intros Hjobs Hfind. unfold process_workflow.
  assert (Htruthy : truthy (VDict d) = true)
    by (destruct d; [discriminate|reflexivity]).
  rewrite Htruthy. cbn [negb py_contains]. rewrite dict_has_lookup, Hjobs.
  eapply emits_eq.
  { eapply emits_bind; [apply emits_lift|]. cbn [negb py_getitem].
    rewrite Hjobs.
    eapply emits_bind; [apply emits_lift|]. cbn [py_items].
    eapply emits_bind; [apply emits_lift|]. cbv beta. rewrite Hfind.
    apply emits_bind_raise. apply emits_lift. }
  all: reflexivity.
Qed.

(** X12. When the search for the relevant jobs raises on some job, the file
    gets one diagnostic of a failed processing and nothing else: the jobs
    found before that job are not checked and the root is not looked at. *)
Theorem failed_search_leaves_the_file_unchecked name (d items : dict) e :
  dict_lookup (SStr "jobs") d = Some (VDict items) ->
  find_codeql_jobs items [] = Raise e ->
  emits (process_file (name, RegularFile (Loaded (VDict d)))) (Ok tt)
    [processing_failure_line (path_of name) e] [path_of name] 1.
Proof.
  intros Hjobs Hfind.
  pose proof (no_yaml_find_codeql_jobs items []) as Hyaml.
  rewrite Hfind in Hyaml.
  exact (process_file_raises name (VDict d) e [] 0
           (process_workflow_failed_search (path_of name) d items e
              Hjobs Hfind)
           Hyaml).
Qed.

(** X13. On a [uses] that is a sequence the test of line 43 is membership:
    the step counts when an element is the identifier itself, and an
    element that only contains it does not count. *)
Theorem uses_sequence_is_tested_by_membership l :
  scan_steps [VDict [(SStr "uses", VList l)]] = Ok true
  <-> In (VStr TARGET) l.
Proof.
  cbn. destruct (existsb _ l) eqn:E.
  - split; [intros _|reflexivity].
    apply existsb_exists in E as (x & Hin & Hx).
    destruct x as [[| | | |s]| | |]; try discriminate.
    cbn in Hx. apply String.eqb_eq in Hx. now subst s.
  - split; [discriminate|]. intros Hin.
    assert (H : existsb (fun x => py_eq_str x TARGET) l = true).
    { apply existsb_exists. exists (VStr TARGET). split; [exact Hin|].
      unfold py_eq_str. apply String.eqb_refl. }
    congruence.
Qed.

End Script.

(** ** The claims on sample inputs *)

Lemma skipped_documents_are_silent_witness :
  emits (process_file sample_exn_text sample_render docs_yml) (Ok tt) []
    [path_of "docs.yml"] 0.
Proof.
  apply (skipped_documents_are_silent sample_exn_text sample_render
           "docs.yml" (VDict [(SStr "name", VStr "docs")])).
  reflexivity.
Defined.

(** The number 42 is a document that is not a mapping: the specification
    has the file passed over, the script reports it (C5 as stated fails). *)
Lemma non_mapping_document_is_reported :
  skipped_as_specified (VInt 42) = true
  /\ process_file sample_exn_text sample_render version_yml
       (initial (Some [version_yml]))
     = (Ok tt,
        mkState (Some [version_yml])
          [(Stderr, "ERROR: Failed to process .github/workflows/version.yml: TypeError: in")]
          [".github/workflows/version.yml"] 1).
Proof. split; reflexivity. Qed.

Lemma sample_jobs_distinct : NoDup (map fst sample_jobs).
Proof.
  repeat constructor; cbn; intuition discriminate.
Defined.

Lemma relevant_jobs_are_found_witness :
  find_codeql_jobs sample_jobs [] = Ok [SStr "analyze"]
  /\ NoDup (relevant_jobs sample_jobs).
Proof.
  destruct (relevant_jobs_are_found sample_jobs eq_refl sample_jobs_distinct)
    as (Hfind & _ & Hnodup & _).
  split; [exact Hfind | exact Hnodup].
Defined.

(** A job with a step that uses the action is not found when a step before
    it has an empty [uses:]: the scan raises, and with it the whole search
    (C3 as stated fails). *)
Lemma unreadable_step_hides_relevant_job :
  existsb (fun kv => job_is_relevant (snd kv)) unreadable_step_jobs = true
  /\ find_codeql_jobs unreadable_step_jobs [] = Raise (TypeError "in")
  /\ find_codeql_jobs unreadable_step_jobs []
     <> Ok (relevant_jobs unreadable_step_jobs).
Proof. split; [reflexivity|split; [reflexivity|discriminate]]. Qed.

Lemma workflow_without_codeql_is_silent_witness :
  emits (process_file sample_exn_text sample_render ci_yml) (Ok tt) []
    [path_of "ci.yml"] 0.
Proof.
  apply (workflow_without_codeql_is_silent sample_exn_text sample_render
           "ci.yml" (VDict [(SStr "jobs", VDict [(SStr "build", build_job)])]));
    reflexivity.
Defined.

(** No job of [stub.yml] references the action, and the file is reported
    all the same (C6 as stated fails). *)
Lemma stub_job_is_reported :
  existsb (fun kv => job_is_relevant (snd kv))
    (workflow_jobs (VDict [(SStr "jobs", VDict [(SStr "build", VNone)])]))
  = false
  /\ process_file sample_exn_text sample_render stub_yml
       (initial (Some [stub_yml]))
     = (Ok tt,
        mkState (Some [stub_yml])
          [(Stderr, "ERROR: Failed to process .github/workflows/stub.yml: TypeError: in")]
          [".github/workflows/stub.yml"] 1).
Proof. split; reflexivity. Qed.

(** C1, at [scan.yml]. The job [yes] is relevant and maps [security-events]
    to [write]: the job-level rule owes it a confirmation and no
    diagnostic. The script never reaches the rule: joining the job names at
    line 51 raises, and the file gets a diagnostic. *)
Lemma job_named_yes_is_not_checked :
  find_codeql_jobs yes_job [] = Ok [SBool true]
  /\ job_verdict (job_config_of yes_job (SBool true)) = Granted
  /\ process_file sample_exn_text sample_render scan_yml
       (initial (Some [scan_yml]))
     = (Ok tt,
        mkState (Some [scan_yml])
          [(Stdout, "Found CodeQL analyze workflow: .github/workflows/scan.yml");
           (Stderr, "ERROR: Failed to process .github/workflows/scan.yml: TypeError: join")]
          [".github/workflows/scan.yml"] 1).
Proof. repeat split; reflexivity. Qed.

(** C2, at [nightly.yml]. The root grants [security-events: write] and the
    job [on] is relevant: the root-level rule owes the file its diagnostic.
    The script never reaches the rule, as joining the job names at line 51
    raises. *)
Lemma root_grant_with_job_named_on_is_not_flagged :
  root_grants_write nightly = true
  /\ find_codeql_jobs on_job [] = Ok [SBool true]
  /\ process_file sample_exn_text sample_render nightly_yml
       (initial (Some [nightly_yml]))
     = (Ok tt,
        mkState (Some [nightly_yml])
          [(Stdout, "Found CodeQL analyze workflow: .github/workflows/nightly.yml");
           (Stderr, "ERROR: Failed to process .github/workflows/nightly.yml: TypeError: join")]
          [".github/workflows/nightly.yml"] 1).
Proof. repeat split; reflexivity. Qed.

Lemma b_jobs_distinct : NoDup (map fst b_jobs).
Proof. repeat constructor; cbn; intuition. Defined.

Lemma root_rule_flags_write_only_witness :
  exists lines errors,
    emits (process_file sample_exn_text sample_render b_yml) (Ok tt) lines
      [path_of "b.yml"] errors
    /\ lines = [(Stdout, "Found CodeQL analyze workflow: .github/workflows/b.yml");
                (Stdout, "  Jobs using github/codeql-action/analyze: analyze");
                (Stderr, "ERROR: .github/workflows/b.yml has security-events: write at root level");
                (Stderr, "  Root-level security-events: write should be moved to job level");
                (Stderr, "ERROR: .github/workflows/b.yml job 'analyze' missing security-events permission")]
    /\ errors = 2.
Proof.
  destruct (root_rule_flags_write_only sample_exn_text sample_render "b.yml"
              b_workflow b_jobs ["analyze"]
              eq_refl eq_refl b_jobs_distinct
              ltac:(discriminate) eq_refl)
    as (lines & errors & Hemits & Hlines & Herrors & _).
  exists lines, errors. split; [exact Hemits|]. split; assumption.
Defined.

Lemma a_jobs_distinct : NoDup (map fst a_jobs).
Proof. repeat constructor; cbn; intuition. Defined.

Lemma job_rule_gives_one_outcome_witness :
  emits (for_each [SStr "analyze"]
           (check_job sample_render (path_of "a.yml") (VDict a_workflow)))
    (Ok tt)
    [(Stdout, "  OK Job 'analyze' has correct security-events: write permission")]
    [] 0.
Proof.
  exact (proj1 (proj2
    (job_rule_gives_one_outcome sample_exn_text sample_render "a.yml"
       a_workflow a_jobs ["analyze"]
       eq_refl eq_refl a_jobs_distinct ltac:(discriminate) eq_refl))).
Defined.

Lemma only_workflow_files_are_read_witness :
  exists status lines total,
    main sample_exn_text sample_render (initial (Some listing1))
    = (Ok status, mkState (Some listing1) lines [path_of "a.yml"] total)
    /\ main sample_exn_text sample_render (initial (Some listing2))
       = (Ok status, mkState (Some listing2) lines [path_of "a.yml"] total).
Proof.
  destruct (only_workflow_files_are_read sample_exn_text sample_render
              listing1 listing2 [] [] 0 eq_refl)
    as (status & lines & total & H1 & H2 & _).
  exists status, lines, total. split; [exact H1 | exact H2].
Defined.

(** A file that is not YAML costs one diagnostic and the file after it is
    still checked. *)
Example scenario_broken :
  main sample_exn_text sample_render (initial (Some [broken_yml; a_yml]))
  = (Ok 1,
     mkState (Some [broken_yml; a_yml])
       [(Stderr, "ERROR: Failed to parse .github/workflows/broken.yml: mapping values are not allowed here");
        (Stdout, "Found CodeQL analyze workflow: .github/workflows/a.yml");
        (Stdout, "  Jobs using github/codeql-action/analyze: analyze");
        (Stdout, "  OK Job 'analyze' has correct security-events: write permission");
        (Stderr, "ERROR Found 1 permission configuration errors")]
       [".github/workflows/broken.yml"; ".github/workflows/a.yml"] 1).
Proof. reflexivity. Qed.

(** The two scenarios of the specification: [a.yml] alone gives status 0
    and one confirmation, [b.yml] alone gives status 2. *)
Example scenario_a :
  main sample_exn_text sample_render (initial (Some [a_yml]))
  = (Ok 0,
     mkState (Some [a_yml])
       [(Stdout, "Found CodeQL analyze workflow: .github/workflows/a.yml");
        (Stdout, "  Jobs using github/codeql-action/analyze: analyze");
        (Stdout, "  OK Job 'analyze' has correct security-events: write permission");
        (Stdout, "OK All CodeQL workflows have correct permissions configuration")]
       [".github/workflows/a.yml"] 0).
Proof. reflexivity. Qed.

Example scenario_b :
  fst (main sample_exn_text sample_render (initial (Some [b_yml]))) = Ok 2.
Proof. reflexivity. Qed.

(** ** More sample runs *)

Lemma unreadable_entry_is_one_diagnostic_witness :
  emits (process_file sample_exn_text sample_render archive_yml) (Ok tt)
    [(Stderr, "ERROR: Failed to process .github/workflows/archive.yml: Is a directory")]
    [".github/workflows/archive.yml"] 1.
Proof.
  exact (unreadable_entry_is_one_diagnostic sample_exn_text sample_render
           "archive.yml" (Subdirectory [a_yml]) (IOError "Is a directory")
           eq_refl eq_refl).
Defined.

Lemma listing1_distinct : NoDup (map fst listing1).
Proof. repeat constructor; cbn; intuition discriminate. Defined.

Lemma no_entry_is_processed_twice_witness :
  NoDup (workflow_paths listing1).
Proof.
  exact (proj2 (no_entry_is_processed_twice listing1 listing1_distinct)).
Defined.

Lemma status_ignores_listing_order_witness :
  exists status lines lines' paths paths' total,
    main sample_exn_text sample_render (initial (Some [a_yml; b_yml]))
    = (Ok status,
       mkState (Some [a_yml; b_yml]) (lines ++ [summary_line status])
         paths total)
    /\ main sample_exn_text sample_render (initial (Some [b_yml; a_yml]))
       = (Ok status,
          mkState (Some [b_yml; a_yml]) (lines' ++ [summary_line status])
            paths' total)
    /\ Permutation lines lines' /\ Permutation paths paths'.
Proof.
  exact (status_ignores_listing_order sample_exn_text sample_render
           [a_yml; b_yml] [b_yml; a_yml] (perm_swap b_yml a_yml [])).
Defined.



Lemma failed_search_leaves_the_file_unchecked_witness :
  emits (process_file sample_exn_text sample_render
           ("stub.yml",
            RegularFile (Loaded (VDict [(SStr "jobs",
                                         VDict (a_jobs ++ [(SStr "build", VNone)]))]))))
    (Ok tt)
    [(Stderr, "ERROR: Failed to process .github/workflows/stub.yml: TypeError: in")]
    [".github/workflows/stub.yml"] 1.
Proof.
  exact (failed_search_leaves_the_file_unchecked sample_exn_text sample_render
           "stub.yml" [(SStr "jobs", VDict (a_jobs ++ [(SStr "build", VNone)]))]
           (a_jobs ++ [(SStr "build", VNone)]) (TypeError "in")
           eq_refl eq_refl).
Defined.


(** ** Two runs on the same directory *)

Lemma append_assoc a b c : (a +++ b) +++ c = a +++ (b +++ c).
Proof. induction a as [|x a IH]; cbn; [reflexivity | now rewrite IH]. Qed.

Lemma seq_index_in {A} (l : list A) i x : seq_index l i = Some x -> In x l.
Proof.
  unfold seq_index.
  destruct ((0 <=? _) && _)%Z; [apply nth_error_In | discriminate].
Qed.

Lemma dict_lookup_some k (d : dict) x :
  dict_lookup k d = Some x -> exists k', In (k', x) d.
Proof.
  induction d as [|[k' v] d IH]; simpl; [discriminate|].
  destruct (scalar_eqb k' k).
  - intros [= ->]. exists k'. now left.
  - intros H. destruct (IH H) as (k'' & Hin). exists k''. now right.
Qed.

(** What a subscript or [get] takes out of a value that holds no set holds
    no set. *)
Lemma set_free_getitem v k x :
  set_free v = true -> py_getitem v k = Ok x -> set_free x = true.
Proof.
  destruct v as [[]|items|entries|elements]; cbn [py_getitem set_free];
    try discriminate; intros Hv H.
  - destruct (as_index k) as [i|]; [|discriminate].
    destruct (seq_index (chars s) i) as [y|] eqn:E; [|discriminate].
    injection H as ->. apply seq_index_in in E. unfold chars in E.
    apply in_map_iff in E as (c & <- & _). reflexivity.
  - destruct (as_index k) as [i|]; [|discriminate].
    destruct (seq_index items i) as [y|] eqn:E; [|discriminate].
    injection H as ->. apply seq_index_in in E.
    exact (proj1 (forallb_forall _ _) Hv _ E).
  - destruct (dict_lookup k entries) as [y|] eqn:E; [|discriminate].
    injection H as ->. apply dict_lookup_some in E as (k' & Hin).
    exact (proj1 (forallb_forall _ _) Hv _ Hin).
Qed.

Lemma set_free_get v key x :
  set_free v = true -> py_get v key (VDict []) = Ok x -> set_free x = true.
Proof.
  destruct v as [k|items|entries|elements]; cbn [py_get set_free];
    try discriminate; intros Hv H.
  destruct (dict_lookup (SStr key) entries) as [y|] eqn:E.
  - injection H as ->. apply dict_lookup_some in E as (k' & Hin).
    exact (proj1 (forallb_forall _ _) Hv _ Hin).
  - now injection H as <-.
Qed.

(** A set of steps is passed over, in whatever order it is visited: its
    elements are no mappings. *)
Lemma scan_steps_of_scalars (l : list scalar) :
  scan_steps (map VScalar l) = Ok false.
Proof. induction l as [|k l IH]; cbn; [reflexivity | exact IH]. Qed.

Lemma bind_ext {A B} (m : M A) (k1 k2 : A -> M B) :
  (forall a s, k1 a s = k2 a s) -> forall s, bind m k1 s = bind m k2 s.
Proof.
  intros H s. unfold bind. destruct (m s) as [[a|e] s']; [apply H | reflexivity].
Qed.

Lemma for_each_ext {A} (l : list A) (body1 body2 : A -> M unit) :
  (forall x, In x l -> forall s, body1 x s = body2 x s) ->
  forall s, for_each l body1 s = for_each l body2 s.
Proof.
  induction l as [|x l IH]; intros H s; cbn [for_each]; [reflexivity|].
  unfold bind. rewrite (H x (or_introl eq_refl)).
  destruct (body2 x s) as [[[]|e] s']; [|reflexivity].
  apply IH. intros y Hy. apply H. now right.
Qed.

Section TwoRuns.

(** Two processes word an exception alike; they print a value alike unless
    the value holds a set. *)
Variable exn_text : pyexn -> string.
Variables render1 render2 : value -> string.
Hypothesis render_agrees :
  forall v, set_free v = true -> render1 v = render2 v.

Lemma alike_all o : Forall2 (alike render1 render2) o o.
Proof. induction o; constructor; [apply same_text | assumption]. Qed.

Lemma paired_emits {A} (m : M A) r o p n :
  emits m r o p n -> paired (alike render1 render2) m m.
Proof.
  intros H. exists r, o, o, p, n.
  repeat split; try exact H. apply alike_all.
Qed.

Lemma paired_same {A} (m : M A) :
  reports m -> paired (alike render1 render2) m m.
Proof. intros (r & o & H). exact (paired_emits m _ _ _ _ H). Qed.

Lemma paired_bind {A B} (m1 m2 : M A) (k1 k2 : A -> M B) :
  paired (alike render1 render2) m1 m2 ->
  (forall a, paired (alike render1 render2) (k1 a) (k2 a)) ->
  paired (alike render1 render2) (bind m1 k1) (bind m2 k2).
Proof.
  intros (r & o1 & o2 & p & n & H1 & H2 & Ho) Hk. destruct r as [a|e].
  - destruct (Hk a) as (r' & o1' & o2' & p' & n' & H1' & H2' & Ho').
    exists r', (o1 ++ o1'), (o2 ++ o2'), (p ++ p'), (n + n').
    repeat split.
    + eapply emits_bind; eassumption.
    + eapply emits_bind; eassumption.
    + now apply Forall2_app.
  - exists (Raise e), o1, o2, p, n. repeat split;
      [now apply emits_bind_raise | now apply emits_bind_raise | exact Ho].
Qed.

Lemma paired_print out text1 text2 :
  alike render1 render2 (out, text1) (out, text2) ->
  paired (alike render1 render2) (print out text1) (print out text2).
Proof.
  intros H. exists (Ok tt), [(out, text1)], [(out, text2)], [], 0.
  repeat split; try apply emits_print. now constructor.
Qed.

Lemma paired_try m1 m2 (handler : pyexn -> M unit) :
  paired (alike render1 render2) m1 m2 ->
  (forall e, completes (handler e)) ->
  paired (alike render1 render2)
    (try_except m1 handler) (try_except m2 handler).
Proof.
  intros (r & o1 & o2 & p & n & H1 & H2 & Ho) Hh. destruct r as [[]|e].
  - exists (Ok tt), o1, o2, p, n. repeat split;
      [now apply emits_try_ok | now apply emits_try_ok | exact Ho].
  - destruct (Hh e) as (o' & He).
    exists (Ok tt), (o1 ++ o'), (o2 ++ o'), (p ++ []), (n + diagnostics o').
    repeat split.
    + eapply emits_try_raise; eassumption.
    + eapply emits_try_raise; eassumption.
    + apply Forall2_app; [exact Ho | apply alike_all].
Qed.

Lemma paired_for_each {A} (l : list A) (body1 body2 : A -> M unit) :
  (forall x, paired (alike render1 render2) (body1 x) (body2 x)) ->
  paired (alike render1 render2) (for_each l body1) (for_each l body2).
Proof.
  intros Hbody. induction l as [|x l IH]; cbn [for_each].
  - apply paired_same, reports_ret.
  - apply paired_bind; auto.
Qed.

Lemma py_str_agrees v :
  set_free v = true -> py_str render1 v = py_str render2 v.
Proof.
  intros H. destruct v as [[]| | |]; cbn [py_str];
    try reflexivity; now apply render_agrees.
Qed.

Lemma py_str_of_set_holder render v :
  set_free v = false -> py_str render v = render v.
Proof. destruct v as [k| | |]; [discriminate | reflexivity ..]. Qed.

(** Line 75 is the one place where a value of the document is printed. *)
Lemma paired_check_job path workflow job_name :
  paired (alike render1 render2)
    (check_job render1 path workflow job_name)
    (check_job render2 path workflow job_name).
Proof.
  unfold check_job.
  apply paired_bind; [apply paired_same, reports_lift | intros jobs].
  apply paired_bind; [apply paired_same, reports_lift | intros job_config].
  apply paired_bind; [apply paired_same, reports_lift | intros permissions].
  rewrite <- (py_str_agrees (VScalar job_name) eq_refl).
  destruct (negb (is_dict permissions)).
  { apply paired_same, reports_completes, completes_diagnostic. }
  apply paired_bind; [apply paired_same, reports_lift | intros has_key].
  destruct (negb has_key).
  { apply paired_same, reports_completes, completes_diagnostic. }
  apply paired_bind; [apply paired_same, reports_lift | intros granted].
  destruct (negb (py_eq_str granted "write")).
  2: { apply paired_same, reports_completes, completes_info. }
  destruct (set_free granted) eqn:Hfree.
  - rewrite <- (py_str_agrees granted Hfree).
    apply paired_same, reports_completes, completes_diagnostic.
  - rewrite !(py_str_of_set_holder _ granted Hfree).
    apply paired_bind;
      [|intros; exact (paired_emits _ _ _ _ _ emits_incr)].
    apply paired_print.
    pose proof (quoted_set render1 render2
                  (path +++ " job '" +++ py_str render1 (VScalar job_name)
                   +++ "' has security-events: ")
                  granted ", should be 'write'" Hfree) as H.
    rewrite !append_assoc in H. exact H.
Qed.

Lemma paired_process_workflow path workflow :
  paired (alike render1 render2)
    (process_workflow render1 path workflow)
    (process_workflow render2 path workflow).
Proof.
  unfold process_workflow.
  destruct (negb (truthy workflow)); [apply paired_same, reports_ret|].
  apply paired_bind; [apply paired_same, reports_lift | intros has_jobs].
  destruct (negb has_jobs); [apply paired_same, reports_ret|].
  apply paired_bind; [apply paired_same, reports_lift | intros jobs].
  apply paired_bind; [apply paired_same, reports_lift | intros items].
  apply paired_bind; [apply paired_same, reports_lift | intros codeql_jobs].
  destruct codeql_jobs as [|job_name rest]; [apply paired_same, reports_ret|].
  apply paired_bind;
    [apply paired_same, reports_completes, completes_info | intros _].
  apply paired_bind; [apply paired_same, reports_lift | intros names].
  apply paired_bind;
    [apply paired_same, reports_completes, completes_info | intros _].
  apply paired_bind; [apply paired_same, reports_check_root | intros _].
  apply paired_for_each, paired_check_job.
Qed.

Lemma paired_process_file f :
  paired (alike render1 render2)
    (process_file exn_text render1 f) (process_file exn_text render2 f).
Proof.
  unfold process_file. apply paired_try.
  - apply paired_bind.
    + exact (paired_emits _ _ _ _ _ (safe_load_file_emits f)).
    + intros workflow. apply paired_process_workflow.
  - intros e. apply completes_handle_exception.
Qed.

(** On a document that holds no set the two runs do the same. *)
Lemma check_job_set_free path workflow job_name :
  set_free workflow = true ->
  forall s, check_job render1 path workflow job_name s
            = check_job render2 path workflow job_name s.
Proof.
  intros Hw s. unfold check_job, bind, lift.
  rewrite <- (py_str_agrees (VScalar job_name) eq_refl).
  destruct (py_getitem workflow (SStr "jobs")) as [jobs|e] eqn:Hjobs;
    [|reflexivity].
  destruct (py_getitem jobs job_name) as [job_config|e] eqn:Hconfig;
    [|reflexivity].
  destruct (py_get job_config "permissions" (VDict [])) as [permissions|e]
    eqn:Hpermissions; [|reflexivity].
  destruct (negb (is_dict permissions)); [reflexivity|].
  destruct (py_contains "security-events" permissions) as [has_key|e];
    [|reflexivity].
  destruct (negb has_key); [reflexivity|].
  destruct (py_getitem permissions (SStr "security-events")) as [granted|e]
    eqn:Hgranted; [|reflexivity].
  rewrite <- (py_str_agrees granted); [reflexivity|].
  apply (set_free_getitem _ _ _ (set_free_get _ _ _
           (set_free_getitem _ _ _ (set_free_getitem _ _ _ Hw Hjobs) Hconfig)
           Hpermissions) Hgranted).
Qed.

Lemma process_workflow_set_free path workflow :
  set_free workflow = true ->
  forall s, process_workflow render1 path workflow s
            = process_workflow render2 path workflow s.
Proof.
  intros Hw. unfold process_workflow.
  destruct (negb (truthy workflow)); [reflexivity|].
  apply bind_ext. intros has_jobs.
  destruct (negb has_jobs); [reflexivity|].
  apply bind_ext. intros jobs. apply bind_ext. intros items.
  apply bind_ext. intros codeql_jobs.
  destruct codeql_jobs as [|job_name rest]; [reflexivity|].
  apply bind_ext. intros _. apply bind_ext. intros names.
  apply bind_ext. intros _. apply bind_ext. intros _.
  apply for_each_ext. intros name _. now apply check_job_set_free.
Qed.

Lemma process_file_set_free f :
  holds_no_set f = true ->
  forall s, process_file exn_text render1 f s
            = process_file exn_text render2 f s.
Proof.
  unfold holds_no_set, process_file, try_except, bind, safe_load_file.
  intros Hf s. destruct (snd f) as [[doc|msg|msg]|children]; try reflexivity.
  now rewrite (process_workflow_set_free _ doc Hf).
Qed.

Lemma process_files_set_free (l : list dirent) :
  forallb holds_no_set l = true ->
  forall s, for_each l (process_file exn_text render1) s
            = for_each l (process_file exn_text render2) s.
Proof.
  intros Hl. apply for_each_ext. intros f Hf.
  apply process_file_set_free. exact (proj1 (forallb_forall _ _) Hl f Hf).
Qed.

Lemma summary_is_no_diagnostic total :
  diagnostics [summary_line total] = 0.
Proof. unfold summary_line. now destruct (Nat.eqb total 0). Qed.


End TwoRuns.

Lemma sample_renders_agree v :
  set_free v = true -> sample_render v = sample_render_reversed v.
Proof. destruct v; [reflexivity .. | discriminate]. Qed.



(** C4, at 256 files that cannot be parsed: the script hands 256 to
    [sys.exit], and the exit status of the process is 0. *)
Lemma exit_status_wraps_at_256 :
  let run := main sample_exn_text sample_render
               (initial (Some (broken_files 256))) in
  fst run = Ok 256
  /\ diagnostics (stdio (snd run)) = 256
  /\ exit_status 256 = 0.
Proof. vm_compute. repeat split. Qed.
